(** * GitHubHelper (src/github-helper.ts): remote commit replay and
      pull-request reconciliation, embedded as programs over the host API.

    Every method of [GitHubHelper] is an [async] function whose only effects
    are calls to the remote host (octokit REST and GraphQL) and thrown
    exceptions.  A method is embedded as a value of [Prog]: a finite tree of
    host calls, each continued with the host's answer (a rejection or a
    payload), ending in a returned value or in a thrown error.  [run] plays a
    program against a host, given as a state machine, and records the calls
    in the order they are issued.

    The [core.info] / [core.debug] / [core.error] lines write to the action
    log only and are left out, except that an argument of a log line whose
    evaluation can throw (a property read through [null]) is evaluated where
    the source evaluates it. *)

From Stdlib Require Import String Ascii List ZArith Bool Lia DecimalString.
From ExtLib Require Import Structures.Monad Structures.MonadExc.
Import ListNotations.
Import MonadNotation.
Local Open Scope string_scope.
Local Open Scope monad_scope.

(** ** JavaScript strings and arrays, as far as the helper uses them *)

Module Js.

(** [s.split(sep)] for a one-character separator: the pieces between the
    separators, never an empty array.  The first piece is kept apart from
    the others so that the result is non-empty by construction. *)
Fixpoint split_pieces (sep : ascii) (s : string) : string * list string :=
  match s with
  | EmptyString => (EmptyString, [])
  | String c s' =>
      let (w, ws) := split_pieces sep s' in
      if Ascii.eqb c sep then (EmptyString, w :: ws) else (String c w, ws)
  end.

Definition split (sep : ascii) (s : string) : list string :=
  let (w, ws) := split_pieces sep s in w :: ws.

(** [s.includes(sub)] *)
Fixpoint includes (s sub : string) : bool :=
  if String.prefix sub s then true
  else match s with
       | EmptyString => false
       | String _ s' => includes s' sub
       end.

(** [a + b] where [b] may be [undefined] *)
Definition to_string (o : option string) : string :=
  match o with
  | Some s => s
  | None => "undefined"
  end.

(** truthiness of a number *)
Definition truthy (n : Z) : bool := negb (Z.eqb n 0).

(** [arr.length > 0] *)
Definition nonempty {A} (l : list A) : bool :=
  match l with
  | [] => false
  | _ :: _ => true
  end.

Definition LF : string := String (ascii_of_nat 10) EmptyString.

End Js.

(** The text of [s] before the first [sep] (all of [s] when there is none),
    and the text after it, as the specification words [parse]. *)
Fixpoint before_first (sep : ascii) (s : string) : string :=
  match s with
  | EmptyString => EmptyString
  | String c s' => if Ascii.eqb c sep then EmptyString else String c (before_first sep s')
  end.

Fixpoint after_first (sep : ascii) (s : string) : option string :=
  match s with
  | EmptyString => None
  | String c s' => if Ascii.eqb c sep then Some s' else after_first sep s'
  end.

(** ** Data model *)

(** [interface Repository].  The second piece of the split is [undefined]
    when the input has no ['/']; the declared type [string] does not show
    it, the value does. *)
Record Repository := {
  owner : string;
  repo : option string
}.

(** [interface Pull] *)
Record Pull := {
  number : Z;
  html_url : string;
  created : bool
}.

(** [type TreeObject]; [sha: string | null] *)
Record TreeObject := {
  to_path : string;
  to_mode : string;
  to_sha : option string;
  to_type : string
}.

(** An element of [Commit.changes] (git-command-manager.ts), with the fields
    the helper destructures. *)
Record Change := {
  path : string;
  mode : string;
  status : string
}.

(** [Commit] (git-command-manager.ts), with the fields the helper reads. *)
Record Commit := {
  sha : string;
  tree : string;
  parents : list string;
  subject : string;
  body : string;
  changes : list Change
}.

(** [Inputs] (create-pull-request.ts), with the fields the helper reads.
    [milestone] is a number, tested for truthiness. *)
Record Inputs := {
  i_branch : string;
  i_base : string;
  i_title : string;
  i_body : string;
  i_draft : bool;
  i_milestone : Z;
  i_labels : list string;
  i_assignees : list string;
  i_reviewers : list string;
  i_teamReviewers : list string
}.

(** [BranchFileChanges] (create-or-update-branch.ts) *)
Record FileAddition := {
  fa_path : string;
  fa_contents : string
}.

Record FileDeletion := {
  fd_path : string
}.

Record BranchFileChanges := {
  additions : list FileAddition;
  deletions : list FileDeletion
}.

(** A thrown value: an [Error] object with its class name and message. *)
Record Error := {
  err_name : string;
  err_message : string
}.

(** Reading a property of [null] or [undefined]. *)
Definition TypeError (what : string) : Error :=
  {| err_name := "TypeError"; err_message := what |}.

(** ** The host API *)

(** Parameters of the REST calls.  The spread [...repository] is kept as one
    field. *)
Record PullsCreateParams := {
  pc_repository : Repository;
  pc_title : string;
  pc_head : string;
  pc_head_repo : string;
  pc_base : string;
  pc_body : string;
  pc_draft : bool
}.

Record PullsListParams := {
  pl_repository : Repository;
  pl_state : string;
  pl_head : string;
  pl_base : string
}.

Record PullsUpdateParams := {
  pu_repository : Repository;
  pu_pull_number : Z;
  pu_title : string;
  pu_body : string
}.

Record IssuesUpdateParams := {
  iu_repository : Repository;
  iu_issue_number : Z;
  iu_milestone : Z
}.

Record AddLabelsParams := {
  al_repository : Repository;
  al_issue_number : Z;
  al_labels : list string
}.

Record AddAssigneesParams := {
  aa_repository : Repository;
  aa_issue_number : Z;
  aa_assignees : list string
}.

(** [requestReviewersParams] starts as [{}]; a key that was never set is
    absent from the request. *)
Record RequestReviewersParams := {
  rr_repository : Repository;
  rr_pull_number : Z;
  rr_reviewers : option (list string);
  rr_team_reviewers : option (list string)
}.

Record CreateBlobParams := {
  cb_repository : Repository;
  cb_content : string;
  cb_encoding : string
}.

Record CreateTreeParams := {
  ct_repository : Repository;
  ct_base_tree : option string;
  ct_tree : list TreeObject
}.

Record CreateCommitParams := {
  cc_repository : Repository;
  cc_parents : list string;
  cc_tree : string;
  cc_message : string
}.

Record GetRefParams := {
  gr_repository : Repository;
  gr_ref : string
}.

(** [ur_force] is the [force] key of the request; [None] when the caller
    does not pass it. *)
Record UpdateRefParams := {
  ur_repository : Repository;
  ur_sha : string;
  ur_ref : string;
  ur_force : option bool
}.

Record CreateRefParams := {
  cr_repository : Repository;
  cr_sha : string;
  cr_ref : string
}.

(** Variables of the three GraphQL documents of [pushSignedCommit]. *)
Record RefQueryVars := {
  rq_repoOwner : string;
  rq_repoName : option string;
  rq_branchName : string
}.

Record NewBranchVars := {
  nb_repoId : string;
  nb_oid : string;
  nb_branchName : string
}.

Record PushCommitVars := {
  pv_branchName : string;
  pv_repoNameWithOwner : string;
  pv_headOid : string;
  pv_commitMessage : string;
  pv_fileChanges : BranchFileChanges
}.

Inductive Call : Type :=
| PullsCreate (p : PullsCreateParams)
| PullsList (p : PullsListParams)
| PullsUpdate (p : PullsUpdateParams)
| ReposGet (p : Repository)
| IssuesUpdate (p : IssuesUpdateParams)
| IssuesAddLabels (p : AddLabelsParams)
| IssuesAddAssignees (p : AddAssigneesParams)
| PullsRequestReviewers (p : RequestReviewersParams)
| GitCreateBlob (p : CreateBlobParams)
| GitCreateTree (p : CreateTreeParams)
| GitCreateCommit (p : CreateCommitParams)
| GitGetRef (p : GetRefParams)
| GitUpdateRef (p : UpdateRefParams)
| GitCreateRef (p : CreateRefParams)
| GraphqlGetRefId (v : RefQueryVars)
| GraphqlCreateNewBranch (v : NewBranchVars)
| GraphqlPushCommit (v : PushCommitVars).

(** What the helper reads of each answer. *)
Record PullData := {
  pd_number : Z;
  pd_html_url : string
}.

Record RepoData := {
  rd_parent : option string   (* [parent.full_name], when there is a parent *)
}.

Record ObjectData := {
  od_sha : string
}.

(** [{repository: {id, ref: {target: {oid}}}}]; [ref] and [target] are
    nullable. *)
Record RefTarget := {
  oid : string
}.

Record RefData := {
  target : option RefTarget
}.

Record RefQueryData := {
  repository_id : string;
  repository_ref : option RefData
}.

Record PushCommitData := {
  pcd_commit_oid : string;
  pcd_ref_name : string
}.

Definition Reply (c : Call) : Type :=
  match c with
  | PullsCreate _ => PullData
  | PullsList _ => list PullData
  | PullsUpdate _ => PullData
  | ReposGet _ => RepoData
  | IssuesUpdate _ => unit
  | IssuesAddLabels _ => unit
  | IssuesAddAssignees _ => unit
  | PullsRequestReviewers _ => unit
  | GitCreateBlob _ => ObjectData
  | GitCreateTree _ => ObjectData
  | GitCreateCommit _ => ObjectData
  | GitGetRef _ => unit
  | GitUpdateRef _ => unit
  | GitCreateRef _ => unit
  | GraphqlGetRefId _ => RefQueryData
  | GraphqlCreateNewBranch _ => unit
  | GraphqlPushCommit _ => PushCommitData
  end.

(** A settled promise: [inl e] rejected with [e], [inr v] fulfilled. *)
Definition Settled (A : Type) : Type := (Error + A)%type.

(** ** Programs over the host *)

Inductive Prog (A : Type) : Type :=
| Ret (a : A)
| Throw (e : Error)
| Ask (c : Call) (k : Settled (Reply c) -> Prog A).

Arguments Ret {A} a.
Arguments Throw {A} e.
Arguments Ask {A} c k.

Fixpoint pbind {A B} (p : Prog A) (f : A -> Prog B) : Prog B :=
  match p with
  | Ret a => f a
  | Throw e => Throw e
  | Ask c k => Ask c (fun r => pbind (k r) f)
  end.

(** [try { p } catch (e) { h e }] *)
Fixpoint pcatch {A} (p : Prog A) (h : Error -> Prog A) : Prog A :=
  match p with
  | Ret a => Ret a
  | Throw e => h e
  | Ask c k => Ask c (fun r => pcatch (k r) h)
  end.

#[export] Instance Monad_Prog : Monad Prog :=
  {| ret := @Ret; bind := @pbind |}.

#[export] Instance MonadExc_Prog : MonadExc Error Prog :=
  {| raise := @Throw; catch := @pcatch |}.

(** [await] of a host call: the payload, or the rejection thrown. *)
Definition await (c : Call) : Prog (Reply c) :=
  Ask c (fun r => match r with
                  | inl e => Throw e
                  | inr v => Ret v
                  end).

(** [promise.then(() => true, () => false)] of a host call *)
Definition settles (c : Call) : Prog bool :=
  Ask c (fun r => match r with
                  | inl _ => Ret false
                  | inr _ => Ret true
                  end).

(** A synchronous step that may throw. *)
Definition lift {A} (r : Settled A) : Prog A :=
  match r with
  | inl e => Throw e
  | inr v => Ret v
  end.

(** A program with its outcome made a value: nothing is thrown. *)
Definition settle {A} (p : Prog A) : Prog (Settled A) :=
  pcatch (pbind p (fun a => Ret (inr a))) (fun e => Ret (inl e)).

Fixpoint settle_all {A} (ps : list (Prog A)) : Prog (list (Settled A)) :=
  match ps with
  | [] => Ret []
  | p :: ps' =>
      r <- settle p ;;
      rs <- settle_all ps' ;;
      ret (r :: rs)
  end.

Fixpoint collect {A} (rs : list (Settled A)) : Settled (list A) :=
  match rs with
  | [] => inr []
  | inl e :: _ => inl e
  | inr v :: rs' =>
      match collect rs' with
      | inl e => inl e
      | inr vs => inr (v :: vs)
      end
  end.

(** A program that throws before its first call: an async callback whose
    promise is rejected by the time [map] returns. *)
Definition immediate {A} (p : Prog A) : option Error :=
  match p with
  | Throw e => Some e
  | _ => None
  end.

Fixpoint first_immediate {A} (ps : list (Prog A)) : option Error :=
  match ps with
  | [] => None
  | p :: ps' =>
      match immediate p with
      | Some e => Some e
      | None => first_immediate ps'
      end
  end.

(** What [Promise.all] settles to: rejected with the first rejection to
    settle, fulfilled with all the values in list order otherwise.  A
    callback that threw before its first call is rejected before any answer
    of the host arrives, so the first such one in list order wins; the
    rejections of calls follow, taken in list order. *)
Definition verdict {A} (ps : list (Prog A)) (rs : list (Settled A)) : Settled (list A) :=
  match first_immediate ps with
  | Some e => inl e
  | None => collect rs
  end.

(** [Promise.all(ps)] where every element of [ps] was started by [map] over
    an async callback: every element runs to its end, also after another one
    has been rejected; then the values are returned in list order, or the
    first rejection to settle is thrown.  The elements are concurrent on the
    real host; here their calls are serialised in list order, the order in
    which [map] starts them, and the host answers in that order. *)
Definition promise_all {A} (ps : list (Prog A)) : Prog (list A) :=
  rs <- settle_all ps ;;
  lift (verdict ps rs).

(** ** Running a program against a host *)

(** A host: for every call, from its current state, a new state and an
    answer of the type the call expects. *)
Definition Host (S : Type) : Type :=
  forall c : Call, S -> S * Settled (Reply c).

(** One entry of the log of a run: a call and the answer it got. *)
Record Event := {
  ev_call : Call;
  ev_reply : Settled (Reply ev_call)
}.

Record Outcome (S A : Type) := {
  trace : list Event;     (* the calls issued, in order, with their answers *)
  final : S;              (* the host state after the last call *)
  result : Settled A      (* returned value or thrown error *)
}.

Arguments trace {S A} o.
Arguments final {S A} o.
Arguments result {S A} o.

Fixpoint run {S A} (host : Host S) (p : Prog A) (st : S) : Outcome S A :=
  match p with
  | Ret a => {| trace := []; final := st; result := inr a |}
  | Throw e => {| trace := []; final := st; result := inl e |}
  | Ask c k =>
      let (st', r) := host c st in
      let o := run host (k r) st' in
      {| trace := {| ev_call := c; ev_reply := r |} :: trace o;
         final := final o;
         result := result o |}
  end.

(** The calls of a run, without the answers. *)
Definition calls {S A} (o : Outcome S A) : list Call := map ev_call (trace o).

(** ** Helpers of utils.ts *)

(** Modelled from the spec: [utils.getErrorMessage]; utils.ts is not under
    src/.  The specification has the callers "inspect the error message":
    the message of the thrown error. *)
Definition getErrorMessage (e : Error) : string := err_message e.

(** Modelled from the spec: [utils.stripOrgPrefixFromTeams]; utils.ts is not
    under src/.  "Team names are normalized by stripping any
    organization-prefix": team ["org/team-name"] becomes ["team-name"].  The
    prefix is the text up to and including the first ['/']; a name without
    ['/'] is unchanged. *)
Definition stripOrgPrefix (team : string) : string :=
  match after_first "/" team with
  | Some t => t
  | None => team
  end.

Definition stripOrgPrefixFromTeams (teams : list string) : list string :=
  map stripOrgPrefix teams.

(** ** GitHubHelper *)

Definition ERROR_PR_REVIEW_TOKEN_SCOPE : string :=
  "Validation Failed: " ++ String (ascii_of_nat 34)
    "Could not resolve to a node with the global id of".

Definition parseRepository (repository : string) : Repository :=
  let (owner, rest) := Js.split_pieces "/" repository in
  {| owner := owner; repo := hd_error rest |}.

Definition createOrUpdate (inputs : Inputs) (baseRepository headRepository : string)
  : Prog Pull :=
  let headOwner := fst (Js.split_pieces "/" headRepository) in
  let headBranch := headOwner ++ ":" ++ i_branch inputs in
  (* Try to create the pull request; [Some] stands for the [return] inside
     the [try] block, [None] for falling out of the [catch]. *)
  attempt <-
    catch
      (pull <- await (PullsCreate {|
                 pc_repository := parseRepository baseRepository;
                 pc_title := i_title inputs;
                 pc_head := headBranch;
                 pc_head_repo := headRepository;
                 pc_base := i_base inputs;
                 pc_body := i_body inputs;
                 pc_draft := i_draft inputs |}) ;;
       ret (Some {| number := pd_number pull;
                    html_url := pd_html_url pull;
                    created := true |}))
      (fun e =>
         if Js.includes (getErrorMessage e) "A pull request already exists for"
         then ret None
         else raise e) ;;
  match attempt with
  | Some pull => ret pull
  | None =>
      (* Update the pull request that exists for this branch and base *)
      pulls <- await (PullsList {|
                 pl_repository := parseRepository baseRepository;
                 pl_state := "open";
                 pl_head := headBranch;
                 pl_base := i_base inputs |}) ;;
      first <- match pulls with
               | [] => raise (TypeError "Cannot read properties of undefined (reading 'number')")
               | p :: _ => ret p
               end ;;
      pull <- await (PullsUpdate {|
                 pu_repository := parseRepository baseRepository;
                 pu_pull_number := pd_number first;
                 pu_title := i_title inputs;
                 pu_body := i_body inputs |}) ;;
      ret {| number := pd_number pull;
             html_url := pd_html_url pull;
             created := false |}
  end.

Definition getRepositoryParent (headRepository : string) : Prog (option string) :=
  headRepo <- await (ReposGet (parseRepository headRepository)) ;;
  ret (rd_parent headRepo).

Definition createOrUpdatePullRequest (inputs : Inputs)
    (baseRepository headRepository : string) : Prog Pull :=
  (* Create or update the pull request *)
  pull <- createOrUpdate inputs baseRepository headRepository ;;
  (* Apply milestone *)
  (if Js.truthy (i_milestone inputs)
   then await (IssuesUpdate {|
            iu_repository := parseRepository baseRepository;
            iu_issue_number := number pull;
            iu_milestone := i_milestone inputs |})
   else ret tt) ;;
  (* Apply labels *)
  (if Js.nonempty (i_labels inputs)
   then await (IssuesAddLabels {|
            al_repository := parseRepository baseRepository;
            al_issue_number := number pull;
            al_labels := i_labels inputs |})
   else ret tt) ;;
  (* Apply assignees *)
  (if Js.nonempty (i_assignees inputs)
   then await (IssuesAddAssignees {|
            aa_repository := parseRepository baseRepository;
            aa_issue_number := number pull;
            aa_assignees := i_assignees inputs |})
   else ret tt) ;;
  (* Request reviewers and team reviewers *)
  let reviewers :=
    if Js.nonempty (i_reviewers inputs) then Some (i_reviewers inputs) else None in
  let team_reviewers :=
    if Js.nonempty (i_teamReviewers inputs)
    then Some (stripOrgPrefixFromTeams (i_teamReviewers inputs))
    else None in
  (* [Object.keys(requestReviewersParams).length > 0] *)
  (if match reviewers, team_reviewers with
      | None, None => false
      | _, _ => true
      end
   then catch
          (await (PullsRequestReviewers {|
             rr_repository := parseRepository baseRepository;
             rr_pull_number := number pull;
             rr_reviewers := reviewers;
             rr_team_reviewers := team_reviewers |}))
          (fun e =>
             (* the token-scope message is logged, nothing else *)
             (if Js.includes (getErrorMessage e) ERROR_PR_REVIEW_TOKEN_SCOPE
              then ret tt
              else ret tt) ;;
             raise e)
   else ret tt) ;;
  ret pull.

Definition createOrUpdateRef (branchRepository branch newHead : string) : Prog unit :=
  let repository := parseRepository branchRepository in
  branchExists <- settles (GitGetRef {|
                     gr_repository := repository;
                     gr_ref := branch |}) ;;
  if branchExists : bool
  then await (GitUpdateRef {|
           ur_repository := repository;
           ur_sha := newHead;
           ur_ref := "heads/" ++ branch;
           ur_force := None |})
  else await (GitCreateRef {|
           cr_repository := repository;
           cr_sha := newHead;
           cr_ref := "refs/heads/" ++ branch |}).

Section WorkingTree.

(** [utils.readFileBase64] reads the local working tree: the content of the
    file at the joined path parts, base64-encoded, or an exception of the
    file system.  utils.ts is not under src/; the working tree is a
    parameter. *)
Variable readFileBase64 : list string -> Settled string.

(** The async callback of [commit.changes.map]. *)
Definition treeObjectOf (repository : Repository) (repoPath : string)
    (change : Change) : Prog TreeObject :=
  blobSha <-
    (if (String.eqb (status change) "A" || String.eqb (status change) "M")%bool
     then
       content <- lift (readFileBase64 [repoPath; path change]) ;;
       blob <- await (GitCreateBlob {|
                  cb_repository := repository;
                  cb_content := content;
                  cb_encoding := "base64" |}) ;;
       ret (Some (od_sha blob))
     else ret None) ;;
  ret {| to_path := path change;
         to_mode := mode change;
         to_sha := blobSha;
         to_type := "blob" |}.

Definition createCommit (commit : Commit) (repoPath branchRepository : string)
  : Prog string :=
  let repository := parseRepository branchRepository in
  treeSha <-
    (if Js.nonempty (changes commit)
     then
       treeObjects <- promise_all
                        (map (treeObjectOf repository repoPath) (changes commit)) ;;
       newTree <- await (GitCreateTree {|
                     ct_repository := repository;
                     ct_base_tree := hd_error (parents commit);
                     ct_tree := treeObjects |}) ;;
       ret (od_sha newTree)
     else ret (tree commit)) ;;
  remoteCommit <- await (GitCreateCommit {|
                     cc_repository := repository;
                     cc_parents := parents commit;
                     cc_tree := treeSha;
                     cc_message := subject commit ++ Js.LF ++ Js.LF ++ body commit |}) ;;
  ret (od_sha remoteCommit).

(** The [for ... of] loop of [pushSignedCommits], with [headSha] as the
    loop variable. *)
Fixpoint createCommits (branchCommits : list Commit)
    (repoPath branchRepository headSha : string) : Prog string :=
  match branchCommits with
  | [] => ret headSha
  | commit :: rest =>
      headSha' <- createCommit commit repoPath branchRepository ;;
      createCommits rest repoPath branchRepository headSha'
  end.

Definition pushSignedCommits (branchCommits : list Commit)
    (repoPath branchRepository branch : string) : Prog unit :=
  headSha <- createCommits branchCommits repoPath branchRepository "" ;;
  createOrUpdateRef branchRepository branch headSha.

End WorkingTree.

(** [q.repository.ref!.target!.oid]: the non-null assertions are erased at
    run time, reading through [null] throws. *)
Definition targetOid (r : RefData) : Prog string :=
  match target r with
  | None => raise (TypeError "Cannot read properties of null (reading 'oid')")
  | Some t => ret (oid t)
  end.

Definition refTargetOid (q : RefQueryData) : Prog string :=
  match repository_ref q with
  | None => raise (TypeError "Cannot read properties of null (reading 'target')")
  | Some r => targetOid r
  end.

(** [branchFileChanges] is an optional parameter, read through [!].  The
    answers of the mutations are only logged; their fields are declared
    non-null. *)
Definition pushSignedCommit (branchRepository branch base commitMessage : string)
    (branchFileChanges : option BranchFileChanges) : Prog unit :=
  let (repoOwner, rest) := Js.split_pieces "/" branchRepository in
  let repoName := hd_error rest in
  fetched <- await (GraphqlGetRefId {|
                rq_repoOwner := repoOwner;
                rq_repoName := repoName;
                rq_branchName := branch |}) ;;
  (* if the branch does not exist, then first we need to create the branch
     from base *)
  branchRef <-
    match repository_ref fetched with
    | None =>
        baseRef <- await (GraphqlGetRefId {|
                      rq_repoOwner := repoOwner;
                      rq_repoName := repoName;
                      rq_branchName := base |}) ;;
        (* argument of the "Creating new branch" line *)
        refTargetOid baseRef ;;
        match repository_ref baseRef with
        | Some r =>
            baseOid <- targetOid r ;;
            await (GraphqlCreateNewBranch {|
                nb_repoId := repository_id baseRef;
                nb_oid := baseOid;
                nb_branchName := "refs/heads/" ++ branch |}) ;;
            ret baseRef
        | None => ret baseRef
        end
    | Some _ => ret fetched
    end ;;
  (* argument of the "Hash ref of branch" line *)
  refTargetOid branchRef ;;
  fileChanges <-
    match branchFileChanges with
    | None => raise (TypeError "Cannot read properties of undefined (reading 'additions')")
    | Some changes => ret {| additions := additions changes;
                             deletions := deletions changes |}
    end ;;
  headOid <- refTargetOid branchRef ;;
  await (GraphqlPushCommit {|
      pv_branchName := branch;
      pv_repoNameWithOwner := repoOwner ++ "/" ++ Js.to_string repoName;
      pv_headOid := headOid;
      pv_commitMessage := commitMessage;
      pv_fileChanges := fileChanges |}) ;;
  ret tt.

(** ** A small remote host

    A state machine with pull requests, git objects and refs, on which the
    helper is run at concrete inputs.  It keeps at most one open pull
    request per head and base, answers object creations with fresh hashes,
    and resolves a GraphQL ref by its qualified name or by its short branch
    name. *)

Module Remote.

Record PullRec := {
  pr_number : Z;
  pr_head : string;
  pr_base : string;
  pr_title : string;
  pr_body : string;
  pr_open : bool;
  pr_milestone : option Z;
  pr_labels : list string
}.

Record State := {
  pulls : list PullRec;
  objects : nat;                    (* git objects created so far *)
  refs : list (string * string)     (* qualified ref name, target hash *)
}.

Definition empty : State := {| pulls := []; objects := 0; refs := [] |}.

Definition http (msg : string) : Error :=
  {| err_name := "HttpError"; err_message := msg |}.

Definition not_found : Error := http "Not Found".

Definition decimal (n : nat) : string :=
  DecimalString.NilZero.string_of_uint (Nat.to_uint n).

Definition data_of (r : PullRec) : PullData :=
  {| pd_number := pr_number r;
     pd_html_url := "pull/" ++ decimal (Z.to_nat (pr_number r)) |}.

Definition matches (head base : string) (r : PullRec) : bool :=
  (pr_open r && String.eqb (pr_head r) head && String.eqb (pr_base r) base)%bool.

Definition amend (n : Z) (f : PullRec -> PullRec) (st : State) : option State :=
  if existsb (fun r => Z.eqb (pr_number r) n) (pulls st)
  then Some {| pulls := map (fun r => if Z.eqb (pr_number r) n then f r else r) (pulls st);
               objects := objects st;
               refs := refs st |}
  else None.

Definition fresh (st : State) : State * Settled ObjectData :=
  ({| pulls := pulls st; objects := S (objects st); refs := refs st |},
   inr {| od_sha := "r" ++ decimal (S (objects st)) |}).

Fixpoint lookup (name : string) (l : list (string * string)) : option string :=
  match l with
  | [] => None
  | (n, h) :: l' => if String.eqb n name then Some h else lookup name l'
  end.

Definition set_ref (name hash : string) (st : State) : State :=
  {| pulls := pulls st;
     objects := objects st;
     refs := (name, hash) :: filter (fun e => negb (String.eqb (fst e) name)) (refs st) |}.

Definition resolve (name : string) (st : State) : option string :=
  match lookup name (refs st) with
  | Some h => Some h
  | None => lookup ("refs/heads/" ++ name) (refs st)
  end.

Definition unit_reply (o : option State) (st : State) : State * Settled unit :=
  match o with
  | Some st' => (st', inr tt)
  | None => (st, inl not_found)
  end.

Definition host : Host State := fun c st =>
  match c return State * Settled (Reply c) with
  | PullsCreate p =>
      if existsb (matches (pc_head p) (pc_base p)) (pulls st)
      then (st, inl (http ("Validation Failed: A pull request already exists for "
                                   ++ pc_head p ++ ".")))
      else
        let r := {| pr_number := Z.of_nat (S (length (pulls st)));
                    pr_head := pc_head p;
                    pr_base := pc_base p;
                    pr_title := pc_title p;
                    pr_body := pc_body p;
                    pr_open := true;
                    pr_milestone := None;
                    pr_labels := [] |} in
        ({| pulls := pulls st ++ [r]; objects := objects st; refs := refs st |},
         inr (data_of r))
  | PullsList p =>
      (st, inr (map data_of (filter (matches (pl_head p) (pl_base p)) (pulls st))))
  | PullsUpdate p =>
      let f r := {| pr_number := pr_number r;
                    pr_head := pr_head r;
                    pr_base := pr_base r;
                    pr_title := pu_title p;
                    pr_body := pu_body p;
                    pr_open := pr_open r;
                    pr_milestone := pr_milestone r;
                    pr_labels := pr_labels r |} in
      match amend (pu_pull_number p) f st with
      | Some st' =>
          (st', inr {| pd_number := pu_pull_number p;
                       pd_html_url := "pull/" ++ decimal (Z.to_nat (pu_pull_number p)) |})
      | None => (st, inl not_found)
      end
  | ReposGet _ => (st, inr {| rd_parent := None |})
  | IssuesUpdate p =>
      let f r := {| pr_number := pr_number r;
                    pr_head := pr_head r;
                    pr_base := pr_base r;
                    pr_title := pr_title r;
                    pr_body := pr_body r;
                    pr_open := pr_open r;
                    pr_milestone := Some (iu_milestone p);
                    pr_labels := pr_labels r |} in
      unit_reply (amend (iu_issue_number p) f st) st
  | IssuesAddLabels p =>
      let f r := {| pr_number := pr_number r;
                    pr_head := pr_head r;
                    pr_base := pr_base r;
                    pr_title := pr_title r;
                    pr_body := pr_body r;
                    pr_open := pr_open r;
                    pr_milestone := pr_milestone r;
                    pr_labels := pr_labels r ++ al_labels p |} in
      unit_reply (amend (al_issue_number p) f st) st
  | IssuesAddAssignees p => unit_reply (amend (aa_issue_number p) (fun r => r) st) st
  | PullsRequestReviewers p => unit_reply (amend (rr_pull_number p) (fun r => r) st) st
  | GitCreateBlob _ => fresh st
  | GitCreateTree _ => fresh st
  | GitCreateCommit _ => fresh st
  | GitGetRef p =>
      match lookup ("refs/" ++ gr_ref p) (refs st) with
      | Some _ => (st, inr tt)
      | None => (st, inl not_found)
      end
  | GitUpdateRef p =>
      match lookup ("refs/" ++ ur_ref p) (refs st) with
      | Some _ => (set_ref ("refs/" ++ ur_ref p) (ur_sha p) st, inr tt)
      | None => (st, inl (http "Reference does not exist"))
      end
  | GitCreateRef p =>
      match lookup (cr_ref p) (refs st) with
      | Some _ => (st, inl (http "Reference already exists"))
      | None => (set_ref (cr_ref p) (cr_sha p) st, inr tt)
      end
  | GraphqlGetRefId v =>
      (st, inr {| repository_id := "R_" ++ rq_repoOwner v;
                  repository_ref :=
                    match resolve (rq_branchName v) st with
                    | Some h => Some {| target := Some {| oid := h |} |}
                    | None => None
                    end |})
  | GraphqlCreateNewBranch v =>
      match lookup (nb_branchName v) (refs st) with
      | Some _ => (st, inl (http "A ref named this already exists"))
      | None => (set_ref (nb_branchName v) (nb_oid v) st, inr tt)
      end
  | GraphqlPushCommit v =>
      match lookup ("refs/heads/" ++ pv_branchName v) (refs st) with
      | Some h =>
          if String.eqb h (pv_headOid v)
          then
            let new := "r" ++ decimal (S (objects st)) in
            (set_ref ("refs/heads/" ++ pv_branchName v) new
               {| pulls := pulls st; objects := S (objects st); refs := refs st |},
             inr {| pcd_commit_oid := new; pcd_ref_name := pv_branchName v |})
          else (st, inl (http "Expected branch to point to another commit"))
      | None => (st, inl (http "Branch not found"))
      end
  end.

(** The same host, except that the calls selected by [bad] are rejected
    with [e] and leave the state as it is. *)
Definition refusing {S} (bad : Call -> bool) (e : Error) (h : Host S) : Host S :=
  fun c st => if bad c then (st, inl e) else h c st.

End Remote.

(** ** Sequencing of outcomes *)

(** The outcome of [p] followed by [next]: a thrown error ends the run, a
    value continues it from the state the host was left in. *)
Definition andThen {S A B} (o : Outcome S A) (next : A -> S -> Outcome S B)
  : Outcome S B :=
  match result o with
  | inl e => {| trace := trace o; final := final o; result := inl e |}
  | inr a =>
      let o' := next a (final o) in
      {| trace := trace o ++ trace o'; final := final o'; result := result o' |}
  end.

(** The outcome of [try { p } catch (e) { handler e }]. *)
Definition orElse {S A} (o : Outcome S A) (handler : Error -> S -> Outcome S A)
  : Outcome S A :=
  match result o with
  | inl e =>
      let o' := handler e (final o) in
      {| trace := trace o ++ trace o'; final := final o'; result := result o' |}
  | inr a => {| trace := trace o; final := final o; result := inr a |}
  end.

(** The outcome of a single call. *)
Definition asked {S} (host : Host S) (c : Call) (st : S) : Event * S :=
  ({| ev_call := c; ev_reply := snd (host c st) |}, fst (host c st)).

(** Issuing the calls of [cs] one after the other, each awaited before the
    next, up to and including the first one the host rejects. *)
Fixpoint issueAll {S} (host : Host S) (cs : list Call) (st : S) : Outcome S unit :=
  match cs with
  | [] => {| trace := []; final := st; result := inr tt |}
  | c :: cs' =>
      let (st', r) := host c st in
      let ev := {| ev_call := c; ev_reply := r |} in
      match r with
      | inl e => {| trace := [ev]; final := st'; result := inl e |}
      | inr _ =>
          let o := issueAll host cs' st' in
          {| trace := ev :: trace o; final := final o; result := result o |}
      end
  end.

(** ** Vocabulary of the statements *)

(** The calls the helper is expected to issue, named after the source. *)

Definition createCommitParams (branchRepository : string) (commit : Commit)
    (treeSha : string) : CreateCommitParams :=
  {| cc_repository := parseRepository branchRepository;
     cc_parents := parents commit;
     cc_tree := treeSha;
     cc_message := subject commit ++ Js.LF ++ Js.LF ++ body commit |}.

Definition getRefCall (branchRepository branch : string) : Call :=
  GitGetRef {| gr_repository := parseRepository branchRepository;
               gr_ref := branch |}.

Definition updateRefCall (branchRepository branch newHead : string) : Call :=
  GitUpdateRef {| ur_repository := parseRepository branchRepository;
                  ur_sha := newHead;
                  ur_ref := "heads/" ++ branch;
                  ur_force := None |}.

Definition createRefCall (branchRepository branch newHead : string) : Call :=
  GitCreateRef {| cr_repository := parseRepository branchRepository;
                  cr_sha := newHead;
                  cr_ref := "refs/heads/" ++ branch |}.

(** The one call that follows the probe of [createOrUpdateRef]. *)
Definition refWrite (branchRepository branch newHead : string) (branchExists : bool)
  : Call :=
  if branchExists
  then updateRefCall branchRepository branch newHead
  else createRefCall branchRepository branch newHead.

Definition fulfilled {A} (r : Settled A) : bool :=
  match r with
  | inl _ => false
  | inr _ => true
  end.

Definition isRefWrite (c : Call) : bool :=
  match c with
  | GitUpdateRef _ | GitCreateRef _ => true
  | _ => false
  end.

Definition isRequestReviewers (c : Call) : bool :=
  match c with
  | PullsRequestReviewers _ => true
  | _ => false
  end.

(** The commit creations of a log, each with its answer. *)
Definition createdCommit (ev : Event) : option (CreateCommitParams * Settled ObjectData) :=
  match ev with
  | {| ev_call := GitCreateCommit p; ev_reply := r |} => Some (p, r)
  | _ => None
  end.

Fixpoint createdCommits (t : list Event) : list (CreateCommitParams * Settled ObjectData) :=
  match t with
  | [] => []
  | ev :: t' =>
      match createdCommit ev with
      | Some x => x :: createdCommits t'
      | None => createdCommits t'
      end
  end.


Definition commitEvent (branchRepository : string) (commit : Commit)
    (treeSha remoteSha : string) : Event :=
  {| ev_call := GitCreateCommit (createCommitParams branchRepository commit treeSha);
     ev_reply := inr {| od_sha := remoteSha |} |}.


(** [status === 'A' || status === 'M'] *)
Definition needsBlob (change : Change) : bool :=
  (String.eqb (status change) "A" || String.eqb (status change) "M")%bool.

(** What happened to one change while its tree entry was built: nothing, or
    an upload of [content] answered with a blob hash. *)
Definition Upload : Type := option (string * string).

Definition entryOf (change : Change) (u : Upload) : TreeObject :=
  {| to_path := path change;
     to_mode := mode change;
     to_sha := option_map snd u;
     to_type := "blob" |}.

Definition uploadEvents (branchRepository : string) (u : Upload) : list Event :=
  match u with
  | Some (content, blobSha) =>
      [ {| ev_call := GitCreateBlob {| cb_repository := parseRepository branchRepository;
                                       cb_content := content;
                                       cb_encoding := "base64" |};
           ev_reply := inr {| od_sha := blobSha |} |} ]
  | None => []
  end.

(** The upload that [readFileBase64] and the status of a change allow: one
    of the content read from the working tree when the status is ['A'] or
    ['M'], none otherwise. *)
Definition uploadFor (readFileBase64 : list string -> Settled string)
    (repoPath : string) (change : Change) (u : Upload) : Prop :=
  if needsBlob change
  then exists content blobSha,
         readFileBase64 [repoPath; path change] = inr content
         /\ u = Some (content, blobSha)
  else u = None.

(** A tree entry built for a change: same path and mode, a blob hash exactly
    when the status is ['A'] or ['M']. *)
Definition entryFor (change : Change) (entry : TreeObject) : Prop :=
  to_path entry = path change
  /\ to_mode entry = mode change
  /\ to_type entry = "blob"
  /\ if needsBlob change then to_sha entry <> None else to_sha entry = None.

Fixpoint entriesOf (changes : list Change) (us : list Upload) : list TreeObject :=
  match changes, us with
  | change :: changes', u :: us' => entryOf change u :: entriesOf changes' us'
  | _, _ => []
  end.

(** Pull-request calls of [createOrUpdate]. *)
Definition headBranchOf (inputs : Inputs) (headRepository : string) : string :=
  fst (Js.split_pieces "/" headRepository) ++ ":" ++ i_branch inputs.

Definition pullsCreateCall (inputs : Inputs) (baseRepository headRepository : string)
  : Call :=
  PullsCreate {| pc_repository := parseRepository baseRepository;
                 pc_title := i_title inputs;
                 pc_head := headBranchOf inputs headRepository;
                 pc_head_repo := headRepository;
                 pc_base := i_base inputs;
                 pc_body := i_body inputs;
                 pc_draft := i_draft inputs |}.

Definition pullsListCall (inputs : Inputs) (baseRepository headRepository : string)
  : Call :=
  PullsList {| pl_repository := parseRepository baseRepository;
               pl_state := "open";
               pl_head := headBranchOf inputs headRepository;
               pl_base := i_base inputs |}.

Definition pullsUpdateCall (inputs : Inputs) (baseRepository : string) (n : Z) : Call :=
  PullsUpdate {| pu_repository := parseRepository baseRepository;
                 pu_pull_number := n;
                 pu_title := i_title inputs;
                 pu_body := i_body inputs |}.

Definition alreadyExists (e : Error) : bool :=
  Js.includes (getErrorMessage e) "A pull request already exists for".

Definition pullOf (d : PullData) (wasCreated : bool) : Pull :=
  {| number := pd_number d; html_url := pd_html_url d; created := wasCreated |}.

(** Metadata calls of [createOrUpdatePullRequest], in source order. *)
Definition milestoneCall (inputs : Inputs) (baseRepository : string) (n : Z) : Call :=
  IssuesUpdate {| iu_repository := parseRepository baseRepository;
                  iu_issue_number := n;
                  iu_milestone := i_milestone inputs |}.

Definition labelsCall (inputs : Inputs) (baseRepository : string) (n : Z) : Call :=
  IssuesAddLabels {| al_repository := parseRepository baseRepository;
                     al_issue_number := n;
                     al_labels := i_labels inputs |}.

Definition assigneesCall (inputs : Inputs) (baseRepository : string) (n : Z) : Call :=
  IssuesAddAssignees {| aa_repository := parseRepository baseRepository;
                        aa_issue_number := n;
                        aa_assignees := i_assignees inputs |}.

Definition reviewersCall (inputs : Inputs) (baseRepository : string) (n : Z) : Call :=
  PullsRequestReviewers {|
    rr_repository := parseRepository baseRepository;
    rr_pull_number := n;
    rr_reviewers :=
      if Js.nonempty (i_reviewers inputs) then Some (i_reviewers inputs) else None;
    rr_team_reviewers :=
      if Js.nonempty (i_teamReviewers inputs)
      then Some (stripOrgPrefixFromTeams (i_teamReviewers inputs))
      else None |}.

Definition when (b : bool) (c : Call) : list Call := if b then [c] else [].

Definition metadataCalls (inputs : Inputs) (baseRepository : string) (n : Z) : list Call :=
  when (Js.truthy (i_milestone inputs)) (milestoneCall inputs baseRepository n)
  ++ when (Js.nonempty (i_labels inputs)) (labelsCall inputs baseRepository n)
  ++ when (Js.nonempty (i_assignees inputs)) (assigneesCall inputs baseRepository n)
  ++ when (Js.nonempty (i_reviewers inputs) || Js.nonempty (i_teamReviewers inputs))
          (reviewersCall inputs baseRepository n).

(** GraphQL calls of [pushSignedCommit]. *)
Definition refQuery (branchRepository name : string) : Call :=
  GraphqlGetRefId {| rq_repoOwner := fst (Js.split_pieces "/" branchRepository);
                     rq_repoName := hd_error (snd (Js.split_pieces "/" branchRepository));
                     rq_branchName := name |}.

Definition newBranchCall (repoId baseOid branch : string) : Call :=
  GraphqlCreateNewBranch {| nb_repoId := repoId;
                            nb_oid := baseOid;
                            nb_branchName := "refs/heads/" ++ branch |}.

Definition pushCommitCall (branchRepository branch expectedHead commitMessage : string)
    (changes : BranchFileChanges) : Call :=
  GraphqlPushCommit {|
    pv_branchName := branch;
    pv_repoNameWithOwner :=
      fst (Js.split_pieces "/" branchRepository) ++ "/"
        ++ Js.to_string (hd_error (snd (Js.split_pieces "/" branchRepository)));
    pv_headOid := expectedHead;
    pv_commitMessage := commitMessage;
    pv_fileChanges := {| additions := additions changes;
                         deletions := deletions changes |} |}.

Definition isNewBranch (c : Call) : bool :=
  match c with
  | GraphqlCreateNewBranch _ => true
  | _ => false
  end.

(** ** Vocabulary of the further properties *)

(** [OctokitOptions], with the two keys the constructor sets. *)
Record OctokitOptions := {
  auth : option string;
  baseUrl : string
}.

(** The options the constructor builds; [if (token)] is the truthiness of a
    string, [baseUrl] is set on both branches. *)
Definition octokitOptions (githubServerHostname token : string) : OctokitOptions :=
  {| auth := match token with
             | EmptyString => None
             | String _ _ => Some token
             end;
     baseUrl := if negb (String.eqb githubServerHostname "github.com")
                then "https://" ++ githubServerHostname ++ "/api/v3"
                else "https://api.github.com" |}.

Definition isBlobUpload (c : Call) : bool :=
  match c with
  | GitCreateBlob _ => true
  | _ => false
  end.

Definition isTreeCreation (c : Call) : bool :=
  match c with
  | GitCreateTree _ => true
  | _ => false
  end.

Definition isCommitCreation (c : Call) : bool :=
  match c with
  | GitCreateCommit _ => true
  | _ => false
  end.

(** The low-level object creations: blob, tree, commit. *)
Definition isObjectCall (c : Call) : bool :=
  (isBlobUpload c || isTreeCreation c || isCommitCreation c)%bool.

Definition isPushCommit (c : Call) : bool :=
  match c with
  | GraphqlPushCommit _ => true
  | _ => false
  end.

Definition isMutation (c : Call) : bool :=
  match c with
  | GraphqlCreateNewBranch _ | GraphqlPushCommit _ => true
  | _ => false
  end.

Definition isPullCall (c : Call) : bool :=
  match c with
  | PullsCreate _ | PullsList _ | PullsUpdate _ => true
  | _ => false
  end.

(** The error an event was rejected with, if it was rejected. *)
Definition rejection (ev : Event) : option Error :=
  match ev_reply ev with
  | inl e => Some e
  | inr _ => None
  end.

Definition uploadCall (branchRepository content : string) : Call :=
  GitCreateBlob {| cb_repository := parseRepository branchRepository;
                   cb_content := content;
                   cb_encoding := "base64" |}.

(** The uploads that the changes of a commit and the working tree call for:
    one per change of status ['A'] or ['M'] whose file can be read, in the
    order of the changes. *)
Definition uploadCallsOf (readFileBase64 : list string -> Settled string)
    (repoPath branchRepository : string) (changes : list Change) : list Call :=
  flat_map (fun change =>
              if needsBlob change
              then match readFileBase64 [repoPath; path change] with
                   | inr content => [uploadCall branchRepository content]
                   | inl _ => []
                   end
              else []) changes.

(** The tree entry of a change that is not uploaded. *)
Definition removalEntry (change : Change) : TreeObject :=
  {| to_path := path change;
     to_mode := mode change;
     to_sha := None;
     to_type := "blob" |}.

Definition treeCall (branchRepository : string) (commit : Commit)
    (entries : list TreeObject) : Call :=
  GitCreateTree {| ct_repository := parseRepository branchRepository;
                   ct_base_tree := hd_error (parents commit);
                   ct_tree := entries |}.

(** What [createCommit] does once the uploads [progs] of a commit with
    changes have settled: it throws the first rejection to settle among
    them, or else creates the tree and then the commit. *)
Definition afterUploads {S} (host : Host S) (branchRepository : string)
    (commit : Commit) (progs : list (Prog TreeObject))
    (uploading : Outcome S (list (Settled TreeObject)))
  : Outcome S string :=
  match result uploading with
  | inl e => {| trace := trace uploading; final := final uploading; result := inl e |}
  | inr settled =>
      match verdict progs settled with
      | inl e =>
          {| trace := trace uploading; final := final uploading; result := inl e |}
      | inr entries =>
          let (st1, r1) := host (treeCall branchRepository commit entries)
                             (final uploading) in
          let treeEv := {| ev_call := treeCall branchRepository commit entries;
                           ev_reply := r1 |} in
          match r1 with
          | inl e =>
              {| trace := trace uploading ++ [treeEv]; final := st1; result := inl e |}
          | inr d =>
              let creation :=
                GitCreateCommit (createCommitParams branchRepository commit (od_sha d)) in
              let (st2, r2) := host creation st1 in
              {| trace := trace uploading
                          ++ [treeEv; {| ev_call := creation; ev_reply := r2 |}];
                 final := st2;
                 result := match r2 with
                           | inl e => inl e
                           | inr d' => inr (od_sha d')
                           end |}
          end
      end
  end.

(** The three metadata calls on the issue of a pull request. *)
Definition isIssueCall (c : Call) : bool :=
  match c with
  | IssuesUpdate _ | IssuesAddLabels _ | IssuesAddAssignees _ => true
  | _ => false
  end.

(** A string without ['/']. *)
Definition slashless (s : string) : Prop := after_first "/" s = None.

(** ** Concrete inputs *)

Module Sample.

Definition inputs : Inputs :=
  {| i_branch := "feature";
     i_base := "main";
     i_title := "Update";
     i_body := "Automated changes";
     i_draft := false;
     i_milestone := 3;
     i_labels := ["bug"];
     i_assignees := [];
     i_reviewers := ["alice"];
     i_teamReviewers := ["org/team-name"] |}.

(** Every file of the working tree reads as the same content. *)
Definition workingTree (parts : list string) : Settled string := inr "Y29udGVudA==".

Definition first : Commit :=
  {| sha := "l1"; tree := "t1"; parents := ["p0"];
     subject := "one"; body := ""; changes := [] |}.

Definition second : Commit :=
  {| sha := "l2"; tree := "t2"; parents := ["l1"];
     subject := "two"; body := ""; changes := [] |}.

Definition edit : Commit :=
  {| sha := "l3"; tree := "t3"; parents := ["l2"];
     subject := "edit"; body := "";
     changes := [ {| path := "a.txt"; mode := "100644"; status := "M" |};
                  {| path := "b.txt"; mode := "100644"; status := "D" |} ] |}.

Definition withMain (h : string) : Remote.State :=
  {| Remote.pulls := []; Remote.objects := 0; Remote.refs := [("refs/heads/main", h)] |}.

Definition withFeature (h : string) : Remote.State :=
  {| Remote.pulls := []; Remote.objects := 0;
     Remote.refs := [("refs/heads/feature", h); ("refs/heads/main", "B")] |}.

Definition noChanges : BranchFileChanges := {| additions := []; deletions := [] |}.

Definition isLabels (c : Call) : bool :=
  match c with
  | IssuesAddLabels _ => true
  | _ => false
  end.

Definition labelsRefused : Host Remote.State :=
  Remote.refusing isLabels (Remote.http "Validation Failed") Remote.host.

(** The host whose only pull request for the head was closed: creation is
    refused as a duplicate, the listing of open ones is empty. *)
Definition isCreate (c : Call) : bool :=
  match c with
  | PullsCreate _ => true
  | _ => false
  end.

Definition staleDuplicate : Host Remote.State :=
  Remote.refusing isCreate
    (Remote.http "Validation Failed: A pull request already exists for o:feature.")
    Remote.host.

(** The host on which every creation of a pull request fails for a reason
    of its own. *)
Definition serverDown : Host Remote.State :=
  Remote.refusing isCreate (Remote.http "Server Error") Remote.host.

(** Inputs without milestone, labels, assignees and reviewers. *)
Definition plain : Inputs :=
  {| i_branch := "feature";
     i_base := "main";
     i_title := "Update";
     i_body := "Automated changes";
     i_draft := false;
     i_milestone := 0;
     i_labels := [];
     i_assignees := [];
     i_reviewers := [];
     i_teamReviewers := [] |}.

(** The host state once the pull request of [inputs] is open. *)
Definition opened : Remote.State :=
  {| Remote.pulls := [ {| Remote.pr_number := 1;
                          Remote.pr_head := "o:feature";
                          Remote.pr_base := "main";
                          Remote.pr_title := "Update";
                          Remote.pr_body := "Automated changes";
                          Remote.pr_open := true;
                          Remote.pr_milestone := None;
                          Remote.pr_labels := [] |} ];
     Remote.objects := 0;
     Remote.refs := [] |}.

Definition duplicate : Error :=
  Remote.http "Validation Failed: A pull request already exists for o:feature.".

Definition openedData : PullData := {| pd_number := 1; pd_html_url := "pull/1" |}.

(** A commit that only removes a file. *)
Definition removal : Commit :=
  {| sha := "l4"; tree := "t4"; parents := ["l3"];
     subject := "remove"; body := "";
     changes := [ {| path := "b.txt"; mode := "100644"; status := "D" |} ] |}.

(** The working tree in which no file can be read. *)
Definition unreadable (parts : list string) : Settled string :=
  inl {| err_name := "Error"; err_message := "ENOENT: no such file or directory" |}.

Definition isBlob (c : Call) : bool :=
  match c with
  | GitCreateBlob _ => true
  | _ => false
  end.

(** The host that refuses every blob upload. *)
Definition blobsRefused : Host Remote.State :=
  Remote.refusing isBlob (Remote.http "Server Error") Remote.host.

Definition isCommit (c : Call) : bool :=
  match c with
  | GitCreateCommit _ => true
  | _ => false
  end.

(** The host that refuses every commit creation. *)
Definition commitsRefused : Host Remote.State :=
  Remote.refusing isCommit (Remote.http "Server Error") Remote.host.

Definition isPush (c : Call) : bool :=
  match c with
  | GraphqlPushCommit _ => true
  | _ => false
  end.

(** The host on which the branch has always moved on. *)
Definition staleHead : Host Remote.State :=
  Remote.refusing isPush (Remote.http "Expected branch to point to another commit")
    Remote.host.

Definition isList (c : Call) : bool :=
  match c with
  | PullsList _ => true
  | _ => false
  end.

Definition listingDown : Host Remote.State :=
  Remote.refusing isList (Remote.http "Server Error") Remote.host.

Definition isReviewers (c : Call) : bool :=
  match c with
  | PullsRequestReviewers _ => true
  | _ => false
  end.

(** The working tree in which [b.txt] alone cannot be read. *)
Definition missing : Error :=
  {| err_name := "Error"; err_message := "ENOENT: no such file or directory" |}.

Definition withoutB (parts : list string) : Settled string :=
  match parts with
  | [_; name] => if String.eqb name "b.txt" then inl missing else inr "Y29udGVudA=="
  | _ => inr "Y29udGVudA=="
  end.

(** A commit that modifies [a.txt] and adds [b.txt]. *)
Definition twoFiles : Commit :=
  {| sha := "l5"; tree := "t5"; parents := ["l4"];
     subject := "two files"; body := "";
     changes := [ {| path := "a.txt"; mode := "100644"; status := "M" |};
                  {| path := "b.txt"; mode := "100644"; status := "A" |} ] |}.

(** The host that refuses every reviewer request. *)
Definition reviewersRefused : Host Remote.State :=
  Remote.refusing isReviewers (Remote.http "Validation Failed") Remote.host.

End Sample.

(** ** Laws of [run] *)

(** Symbolic execution of a program: unfold the monad, stop at the next
    host call. *)
Ltac exec :=
  cbn [bind ret raise catch Monad_Prog MonadExc_Prog pbind pcatch
       await settles lift run trace final result app
       repository_id repository_ref target oid].

Ltac exec_in H :=
  cbn [bind ret raise catch Monad_Prog MonadExc_Prog pbind pcatch
       await settles lift run trace final result app
       repository_id repository_ref target oid] in H.

(** Continue past a host call whose answer is known. *)
Ltac answer H := exec; rewrite H; exec.

(** Write the calls of hypotheses and goal as the source writes them. *)
Ltac name_calls :=
  cbv delta [pullsCreateCall pullsListCall pullsUpdateCall headBranchOf
             milestoneCall labelsCall assigneesCall reviewersCall
             refQuery newBranchCall pushCommitCall
             getRefCall updateRefCall createRefCall] in *;
  cbn beta zeta in *.

Lemma outcome_eta {S A} (o : Outcome S A) :
  {| trace := trace o; final := final o; result := result o |} = o.
Proof. destruct o; reflexivity. Qed.

Section RunLaws.

Context {S : Type} (host : Host S).

Lemma run_bind {A B} (p : Prog A) (f : A -> Prog B) (st : S) :
  run host (bind p f) st = andThen (run host p st) (fun a st' => run host (f a) st').
Proof.
  revert st. induction p as [a | e | c k IH]; intros st; cbn.
  - unfold andThen. cbn. symmetry. apply outcome_eta.
  - reflexivity.
  - destruct (host c st) as [st' r]. cbn in *. rewrite IH.
    unfold andThen. cbn. destruct (result (run host (k r) st')); reflexivity.
Qed.

Lemma run_catch {A} (p : Prog A) (handler : Error -> Prog A) (st : S) :
  run host (catch p handler) st
  = orElse (run host p st) (fun e st' => run host (handler e) st').
Proof.
  revert st. induction p as [a | e | c k IH]; intros st; cbn.
  - reflexivity.
  - unfold orElse. cbn. symmetry. apply outcome_eta.
  - destruct (host c st) as [st' r]. cbn in *. rewrite IH.
    unfold orElse. cbn. destruct (result (run host (k r) st')); reflexivity.
Qed.

Lemma run_await (c : Call) (st : S) :
  run host (await c) st
  = {| trace := [fst (asked host c st)];
       final := snd (asked host c st);
       result := snd (host c st) |}.
Proof.
  unfold asked. cbn. destruct (host c st) as [st' [e | v]]; reflexivity.
Qed.

Lemma run_settles (c : Call) (st : S) :
  run host (settles c) st
  = {| trace := [fst (asked host c st)];
       final := snd (asked host c st);
       result := inr (fulfilled (snd (host c st))) |}.
Proof.
  unfold asked. cbn. destruct (host c st) as [st' [e | v]]; reflexivity.
Qed.

Lemma run_ret {A} (a : A) (st : S) :
  run host (ret a) st = {| trace := []; final := st; result := inr a |}.
Proof. reflexivity. Qed.

Lemma calls_andThen {A B} (o : Outcome S A) (next : A -> S -> Outcome S B) :
  calls (andThen o next)
  = (calls o ++ match result o with
                | inl _ => []
                | inr a => calls (next a (final o))
                end)%list.
Proof.
  unfold andThen, calls. destruct (result o); cbn.
  - now rewrite app_nil_r.
  - now rewrite map_app.
Qed.

(** The ref reconciler: the probe, then one write chosen by its answer. *)
Lemma run_createOrUpdateRef (branchRepository branch newHead : string) (st : S) :
  let probe := getRefCall branchRepository branch in
  let write := refWrite branchRepository branch newHead (fulfilled (snd (host probe st))) in
  let o := run host (createOrUpdateRef branchRepository branch newHead) st in
  trace o = [fst (asked host probe st); fst (asked host write (fst (host probe st)))]
  /\ final o = fst (host write (fst (host probe st)))
  /\ result o = match snd (host write (fst (host probe st))) with
                | inl e => inl e
                | inr _ => inr tt
                end.
Proof.
  cbn zeta. unfold createOrUpdateRef. rewrite run_bind, run_settles.
  unfold andThen, getRefCall, refWrite, updateRefCall, createRefCall, asked. cbn.
  destruct (host _ st) as [st1 [e | v]]; cbn.
  - destruct (host _ st1) as [st2 [e2 | []]]; cbn; auto.
  - destruct (host _ st1) as [st2 [e2 | []]]; cbn; auto.
Qed.

End RunLaws.

(** ** RepositoryRef *)

Lemma split_pieces_first (sep : ascii) (s : string) :
  fst (Js.split_pieces sep s) = before_first sep s.
Proof.
  induction s as [| c s IH]; cbn; [reflexivity |].
  destruct (Js.split_pieces sep s) as [w ws]. cbn in IH.
  destruct (Ascii.eqb c sep); cbn; congruence.
Qed.

Lemma split_pieces_rest (sep : ascii) (s : string) :
  snd (Js.split_pieces sep s)
  = match after_first sep s with
    | Some r => Js.split sep r
    | None => []
    end.
Proof.
  induction s as [| c s IH]; cbn; [reflexivity |].
  destruct (Ascii.eqb c sep); cbn.
  - unfold Js.split. destruct (Js.split_pieces sep s); reflexivity.
  - destruct (Js.split_pieces sep s); exact IH.
Qed.

(** C6, as stated, fails: on ["a/b/c"] the name is ["b"], the piece up to
    the second ['/'], not the remainder ["b/c"] of the string. *)
Lemma parseRepository_not_remainder :
  repo (parseRepository "a/b/c") = Some "b"
  /\ after_first "/" "a/b/c" = Some "b/c"
  /\ repo (parseRepository "a/b/c") <> after_first "/" "a/b/c".
Proof. split; [reflexivity | split; [reflexivity | cbn; congruence]]. Qed.

(** C6 (amended): [parseRepository] splits the input on every ['/'] and
    keeps the first two pieces, with no validation.  For every input the
    owner is the text before the first ['/'] (the whole input when there is
    none); the name is the text between the first ['/'] and the second (or
    the end of the input), and is undefined when the input has no ['/']. *)
Theorem parseRepository_first_two_pieces (repository : string) :
  parseRepository repository
  = {| owner := nth 0 (Js.split "/" repository) "";
       repo := nth_error (Js.split "/" repository) 1 |}
  /\ owner (parseRepository repository) = before_first "/" repository
  /\ repo (parseRepository repository)
     = option_map (before_first "/") (after_first "/" repository).
Proof.
  unfold parseRepository, Js.split.
  pose proof (split_pieces_first "/" repository) as Hf.
  pose proof (split_pieces_rest "/" repository) as Hr.
  destruct (Js.split_pieces "/" repository) as [w ws]. cbn in *.
  split; [destruct ws; reflexivity | split; [exact Hf |]].
  rewrite Hr. destruct (after_first "/" repository) as [r |]; cbn; [| reflexivity].
  unfold Js.split. rewrite <- (split_pieces_first "/" r).
  destruct (Js.split_pieces "/" r); reflexivity.
Qed.

(** ** RefReconciler *)

(** C5: for every repository, branch and target hash, [createOrUpdateRef]
    first reads the ref; when the read is fulfilled it issues an update of
    [heads/<branch>] to the target hash without the [force] key, when the
    read is rejected it issues a create of [refs/heads/<branch>] at the
    target hash; the log holds the probe and exactly one write. *)
Theorem createOrUpdateRef_one_write {S} (host : Host S) (st : S)
    (branchRepository branch targetHash : string) :
  let o := run host (createOrUpdateRef branchRepository branch targetHash) st in
  let probe := GitGetRef {| gr_repository := parseRepository branchRepository;
                            gr_ref := branch |} in
  calls o
  = [ probe;
      match snd (host probe st) with
      | inr _ => GitUpdateRef {| ur_repository := parseRepository branchRepository;
                                 ur_sha := targetHash;
                                 ur_ref := "heads/" ++ branch;
                                 ur_force := None |}
      | inl _ => GitCreateRef {| cr_repository := parseRepository branchRepository;
                                 cr_sha := targetHash;
                                 cr_ref := "refs/heads/" ++ branch |}
      end ]
  /\ length (filter isRefWrite (calls o)) = 1.
Proof.
  cbn zeta. unfold calls.
  destruct (run_createOrUpdateRef host branchRepository branch targetHash st) as (-> & _).
  fold (getRefCall branchRepository branch).
  destruct (snd (host (getRefCall branchRepository branch) st)); split; reflexivity.
Qed.

(** ** SequentialCommitPusher *)

(** C9: with an empty commit list [pushSignedCommits] is not a no-op: it
    probes the ref and issues exactly one ref create or update, whose target
    hash is the empty string. *)
Theorem pushSignedCommits_empty_list {S} (host : Host S) (st : S)
    (readFileBase64 : list string -> Settled string)
    (repoPath branchRepository branch : string) :
  let o := run host (pushSignedCommits readFileBase64 [] repoPath branchRepository branch) st in
  let probe := getRefCall branchRepository branch in
  calls o
  = [ probe;
      match snd (host probe st) with
      | inr _ => updateRefCall branchRepository branch ""
      | inl _ => createRefCall branchRepository branch ""
      end ]
  /\ length (filter isRefWrite (calls o)) = 1.
Proof.
  cbn zeta. unfold pushSignedCommits. rewrite run_bind. cbn [createCommits].
  rewrite run_ret. unfold andThen, calls. cbn [result final trace app].
  destruct (run_createOrUpdateRef host branchRepository branch "" st) as (-> & _).
  destruct (snd (host (getRefCall branchRepository branch) st)); split; reflexivity.
Qed.

Lemma last_cons {A} (x : A) (l : list A) (d : A) : last (x :: l) d = last l x.
Proof.
  revert x d. induction l as [| y l IH]; intros x d; [reflexivity |].
  change (last (x :: y :: l) d) with (last (y :: l) d). now rewrite !IH.
Qed.

Lemma last_app_nonempty {A} (l1 l2 : list A) (d : A) :
  l2 <> [] -> last (l1 ++ l2) d = last l2 d.
Proof.
  intros Hne. induction l1 as [| x l1 IH]; [reflexivity |].
  cbn [app]. rewrite last_cons. destruct (l1 ++ l2)%list eqn:Happ.
  - destruct l1; [contradiction | discriminate].
  - now rewrite <- IH, !last_cons.
Qed.

Section Replay.

Context {S : Type} (host : Host S).
Variable readFileBase64 : list string -> Settled string.

Lemma run_createCommit_no_changes (commit : Commit) (repoPath branchRepository : string)
    (st : S) :
  changes commit = [] ->
  let call := GitCreateCommit (createCommitParams branchRepository commit (tree commit)) in
  let o := run host (createCommit readFileBase64 commit repoPath branchRepository) st in
  trace o = [fst (asked host call st)]
  /\ final o = fst (host call st)
  /\ result o = match snd (host call st) with
                | inl e => inl e
                | inr d => inr (od_sha d)
                end.
Proof.
  intros Hnone. cbn zeta. unfold createCommit. rewrite Hnone. cbn [Js.nonempty].
  rewrite run_bind, run_ret. unfold andThen. cbn [result final trace app].
  rewrite run_bind, (run_await host (GitCreateCommit _) st).
  unfold andThen, asked, createCommitParams. cbn.
  match goal with |- context [host ?c st] => destruct (host c st) as [st' [e | d]] end;
    cbn; auto.
Qed.




End Replay.




(** ** PullRequestReconciler *)

Section CreateOrUpdate.

Context {S : Type} (host : Host S).
Variables (inputs : Inputs) (baseRepository headRepository : string).

Lemma createOrUpdate_created (st st1 : S) (d : PullData) :
  host (pullsCreateCall inputs baseRepository headRepository) st = (st1, inr d) ->
  run host (createOrUpdate inputs baseRepository headRepository) st
  = {| trace := [ {| ev_call := pullsCreateCall inputs baseRepository headRepository;
                     ev_reply := inr d |} ];
       final := st1;
       result := inr (pullOf d true) |}.
Proof.
  intros Hc. unfold createOrUpdate.
  name_calls. answer Hc. reflexivity.
Qed.

Lemma createOrUpdate_rethrown (st st1 : S) (e : Error) :
  host (pullsCreateCall inputs baseRepository headRepository) st = (st1, inl e) ->
  alreadyExists e = false ->
  run host (createOrUpdate inputs baseRepository headRepository) st
  = {| trace := [ {| ev_call := pullsCreateCall inputs baseRepository headRepository;
                     ev_reply := inl e |} ];
       final := st1;
       result := inl e |}.
Proof.
  intros Hc He. unfold createOrUpdate.
  name_calls. answer Hc.
  unfold alreadyExists in He. rewrite He. reflexivity.
Qed.

Lemma createOrUpdate_listing_failed (st st1 st2 : S) (e e' : Error) :
  host (pullsCreateCall inputs baseRepository headRepository) st = (st1, inl e) ->
  alreadyExists e = true ->
  host (pullsListCall inputs baseRepository headRepository) st1 = (st2, inl e') ->
  run host (createOrUpdate inputs baseRepository headRepository) st
  = {| trace := [ {| ev_call := pullsCreateCall inputs baseRepository headRepository;
                     ev_reply := inl e |};
                  {| ev_call := pullsListCall inputs baseRepository headRepository;
                     ev_reply := inl e' |} ];
       final := st2;
       result := inl e' |}.
Proof.
  intros Hc He Hl. unfold createOrUpdate.
  name_calls. answer Hc.
  unfold alreadyExists in He. rewrite He. answer Hl. reflexivity.
Qed.

Lemma createOrUpdate_no_open (st st1 st2 : S) (e : Error) :
  host (pullsCreateCall inputs baseRepository headRepository) st = (st1, inl e) ->
  alreadyExists e = true ->
  host (pullsListCall inputs baseRepository headRepository) st1 = (st2, inr []) ->
  run host (createOrUpdate inputs baseRepository headRepository) st
  = {| trace := [ {| ev_call := pullsCreateCall inputs baseRepository headRepository;
                     ev_reply := inl e |};
                  {| ev_call := pullsListCall inputs baseRepository headRepository;
                     ev_reply := inr [] |} ];
       final := st2;
       result := inl (TypeError "Cannot read properties of undefined (reading 'number')") |}.
Proof.
  intros Hc He Hl. unfold createOrUpdate.
  name_calls. answer Hc.
  unfold alreadyExists in He. rewrite He. answer Hl. reflexivity.
Qed.

Lemma createOrUpdate_updated (st st1 st2 st3 : S) (e : Error)
    (p : PullData) (ps : list PullData) (r : Settled PullData) :
  host (pullsCreateCall inputs baseRepository headRepository) st = (st1, inl e) ->
  alreadyExists e = true ->
  host (pullsListCall inputs baseRepository headRepository) st1 = (st2, inr (p :: ps)) ->
  host (pullsUpdateCall inputs baseRepository (pd_number p)) st2 = (st3, r) ->
  run host (createOrUpdate inputs baseRepository headRepository) st
  = {| trace := [ {| ev_call := pullsCreateCall inputs baseRepository headRepository;
                     ev_reply := inl e |};
                  {| ev_call := pullsListCall inputs baseRepository headRepository;
                     ev_reply := inr (p :: ps) |};
                  {| ev_call := pullsUpdateCall inputs baseRepository (pd_number p);
                     ev_reply := r |} ];
       final := st3;
       result := match r with
                 | inl e' => inl e'
                 | inr d => inr (pullOf d false)
                 end |}.
Proof.
  intros Hc He Hl Hu. unfold createOrUpdate.
  name_calls. answer Hc.
  unfold alreadyExists in He. rewrite He. answer Hl. answer Hu.
  destruct r; reflexivity.
Qed.

End CreateOrUpdate.

(** C4: [createOrUpdate] returns [created = true] when the creation call is
    fulfilled; a rejection whose message does not contain "A pull request
    already exists for" is rethrown unchanged, with no further call; a
    rejection whose message contains it is followed by the listing of open
    pull requests for the same head and base and by an update of the first
    listed one with the title and body, and the result carries that pull
    request's number with [created = false].  Hence two calls with the same
    inputs, on a host that refuses the second creation as a duplicate, lists
    the pull request it created and answers an update with the pull request
    updated, return [created = true] then [created = false] with the same
    number. *)
Theorem createOrUpdate_reconciles {S} (host : Host S) (st : S)
    (inputs : Inputs) (baseRepository headRepository : string) :
  let create := pullsCreateCall inputs baseRepository headRepository in
  let listing := PullsList {| pl_repository := parseRepository baseRepository;
                              pl_state := "open";
                              pl_head := headBranchOf inputs headRepository;
                              pl_base := i_base inputs |} in
  let update n := PullsUpdate {| pu_repository := parseRepository baseRepository;
                                 pu_pull_number := n;
                                 pu_title := i_title inputs;
                                 pu_body := i_body inputs |} in
  let again := createOrUpdate inputs baseRepository headRepository in
  (forall st1 d,
      host create st = (st1, inr d) ->
      calls (run host again st) = [create]
      /\ result (run host again st)
         = inr {| number := pd_number d; html_url := pd_html_url d; created := true |})
  /\ (forall st1 e,
         host create st = (st1, inl e) ->
         Js.includes (getErrorMessage e) "A pull request already exists for" = false ->
         calls (run host again st) = [create]
         /\ result (run host again st) = inl e)
  /\ (forall st1 st2 st3 e p ps d,
         host create st = (st1, inl e) ->
         Js.includes (getErrorMessage e) "A pull request already exists for" = true ->
         host listing st1 = (st2, inr (p :: ps)) ->
         host (update (pd_number p)) st2 = (st3, inr d) ->
         pd_number d = pd_number p ->
         calls (run host again st) = [create; listing; update (pd_number p)]
         /\ result (run host again st)
            = inr {| number := pd_number p; html_url := pd_html_url d; created := false |})
  /\ (forall st1 st2 st3 st4 d e p ps d',
         host create st = (st1, inr d) ->
         host create st1 = (st2, inl e) ->
         Js.includes (getErrorMessage e) "A pull request already exists for" = true ->
         host listing st2 = (st3, inr (p :: ps)) ->
         pd_number p = pd_number d ->
         host (update (pd_number p)) st3 = (st4, inr d') ->
         pd_number d' = pd_number p ->
         exists pull1 pull2,
           result (run host again st) = inr pull1
           /\ result (run host again (final (run host again st))) = inr pull2
           /\ created pull1 = true
           /\ created pull2 = false
           /\ number pull1 = number pull2).
Proof.
  cbn zeta. repeat apply conj.
  - intros st1 d Hc.
    rewrite (createOrUpdate_created host inputs baseRepository headRepository st st1 d Hc).
    split; reflexivity.
  - intros st1 e Hc He.
    rewrite (createOrUpdate_rethrown host inputs baseRepository headRepository st st1 e Hc He).
    split; reflexivity.
  - intros st1 st2 st3 e p ps d Hc He Hl Hu Hecho.
    rewrite (createOrUpdate_updated host inputs baseRepository headRepository
               st st1 st2 st3 e p ps (inr d) Hc He Hl Hu).
    split; [reflexivity |]. cbn. unfold pullOf. now rewrite Hecho.
  - intros st1 st2 st3 st4 d e p ps d' Hc Hc' He Hl Hsame Hu Hecho.
    rewrite (createOrUpdate_created host inputs baseRepository headRepository st st1 d Hc).
    cbn [final result].
    rewrite (createOrUpdate_updated host inputs baseRepository headRepository
               st1 st2 st3 st4 e p ps (inr d') Hc' He Hl Hu).
    cbn [result]. do 2 eexists. repeat apply conj; try reflexivity.
    cbn. congruence.
Qed.

Lemma createOrUpdate_reconciles_witness :
  let again := createOrUpdate Sample.inputs "o/r" "o/r" in
  let create := pullsCreateCall Sample.inputs "o/r" "o/r" in
  (calls (run Remote.host again Remote.empty) = [create]
   /\ result (run Remote.host again Remote.empty)
      = inr {| number := 1; html_url := "pull/1"; created := true |})
  /\ (calls (run Sample.serverDown again Remote.empty) = [create]
      /\ result (run Sample.serverDown again Remote.empty)
         = inl (Remote.http "Server Error"))
  /\ (calls (run Remote.host again Sample.opened)
      = [create; pullsListCall Sample.inputs "o/r" "o/r";
         pullsUpdateCall Sample.inputs "o/r" 1]
      /\ result (run Remote.host again Sample.opened)
         = inr {| number := 1; html_url := "pull/1"; created := false |})
  /\ (exists pull1 pull2,
        result (run Remote.host again Remote.empty) = inr pull1
        /\ result (run Remote.host again (final (run Remote.host again Remote.empty)))
           = inr pull2
        /\ created pull1 = true
        /\ created pull2 = false
        /\ number pull1 = number pull2).
Proof.
  cbn zeta.
  pose proof (createOrUpdate_reconciles Remote.host Remote.empty Sample.inputs "o/r" "o/r")
    as (Hcreated & _ & _ & Htwice).
  pose proof (createOrUpdate_reconciles Sample.serverDown Remote.empty
                Sample.inputs "o/r" "o/r") as (_ & Hrethrown & _).
  pose proof (createOrUpdate_reconciles Remote.host Sample.opened Sample.inputs "o/r" "o/r")
    as (_ & _ & Hupdated & _).
  cbn zeta in *. repeat apply conj.
  - refine (proj1 (Hcreated Sample.opened Sample.openedData _)). reflexivity.
  - refine (proj2 (Hcreated Sample.opened Sample.openedData _)). reflexivity.
  - refine (proj1 (Hrethrown Remote.empty (Remote.http "Server Error") _ _)); reflexivity.
  - refine (proj2 (Hrethrown Remote.empty (Remote.http "Server Error") _ _)); reflexivity.
  - refine (proj1 (Hupdated Sample.opened Sample.opened Sample.opened Sample.duplicate
                     Sample.openedData [] Sample.openedData _ _ _ _ _)); reflexivity.
  - refine (proj2 (Hupdated Sample.opened Sample.opened Sample.opened Sample.duplicate
                     Sample.openedData [] Sample.openedData _ _ _ _ _)); reflexivity.
  - refine (Htwice Sample.opened Sample.opened Sample.opened Sample.opened
              Sample.openedData Sample.duplicate Sample.openedData []
              Sample.openedData _ _ _ _ _ _ _); reflexivity.
Defined.

(** C10: in the reconciliation path of [createOrUpdate] the first element of
    the listing is read without a guard.  When the creation is refused as a
    duplicate and the listing of open pull requests for the head and base is
    empty, the operation throws a [TypeError] at that read: the log ends with
    the listing, no update and no second creation is issued, and no result
    is returned.  When the listing has a first element, the read succeeds
    and the update of that pull request is issued. *)
Theorem createOrUpdate_unguarded_first {S} (host : Host S) (st : S)
    (inputs : Inputs) (baseRepository headRepository : string) :
  let create := pullsCreateCall inputs baseRepository headRepository in
  let listing := pullsListCall inputs baseRepository headRepository in
  let o := run host (createOrUpdate inputs baseRepository headRepository) st in
  (forall st1 st2 e,
      host create st = (st1, inl e) ->
      alreadyExists e = true ->
      host listing st1 = (st2, inr []) ->
      calls o = [create; listing]
      /\ final o = st2
      /\ exists thrown, result o = inl thrown /\ err_name thrown = "TypeError")
  /\ (forall st1 st2 e p ps,
         host create st = (st1, inl e) ->
         alreadyExists e = true ->
         host listing st1 = (st2, inr (p :: ps)) ->
         calls o = [create; listing; pullsUpdateCall inputs baseRepository (pd_number p)]).
Proof.
  cbn zeta. split.
  - intros st1 st2 e Hc He Hl.
    rewrite (createOrUpdate_no_open host inputs baseRepository headRepository
               st st1 st2 e Hc He Hl).
    split; [reflexivity |]. split; [reflexivity |]. eexists. split; reflexivity.
  - intros st1 st2 e p ps Hc He Hl.
    destruct (host (pullsUpdateCall inputs baseRepository (pd_number p)) st2)
      as [st3 r] eqn:Hu.
    rewrite (createOrUpdate_updated host inputs baseRepository headRepository
               st st1 st2 st3 e p ps r Hc He Hl Hu).
    reflexivity.
Qed.

Lemma createOrUpdate_unguarded_first_witness :
  let again := createOrUpdate Sample.inputs "o/r" "o/r" in
  let o := run Sample.staleDuplicate again Remote.empty in
  (calls o = [ pullsCreateCall Sample.inputs "o/r" "o/r";
               pullsListCall Sample.inputs "o/r" "o/r" ]
   /\ final o = Remote.empty
   /\ exists thrown, result o = inl thrown /\ err_name thrown = "TypeError")
  /\ calls (run Remote.host again Sample.opened)
     = [ pullsCreateCall Sample.inputs "o/r" "o/r";
         pullsListCall Sample.inputs "o/r" "o/r";
         pullsUpdateCall Sample.inputs "o/r" 1 ].
Proof.
  cbn zeta. split.
  - refine (proj1 (createOrUpdate_unguarded_first Sample.staleDuplicate Remote.empty
                     Sample.inputs "o/r" "o/r")
              Remote.empty Remote.empty Sample.duplicate _ _ _); reflexivity.
  - refine (proj2 (createOrUpdate_unguarded_first Remote.host Sample.opened
                     Sample.inputs "o/r" "o/r")
              Sample.opened Sample.opened Sample.duplicate Sample.openedData [] _ _ _);
      reflexivity.
Defined.

Section Metadata.

Context {S : Type} (host : Host S).
Variables (inputs : Inputs) (baseRepository headRepository : string).

(** The calls issued are an initial part of the list, all of it when no
    call was rejected; a rejection is the answer to the last call. *)
Lemma issueAll_prefix (cs : list Call) (st : S) :
  exists rest,
    cs = (calls (issueAll host cs st) ++ rest)%list
    /\ (result (issueAll host cs st) = inr tt -> rest = [])
    /\ (forall e, result (issueAll host cs st) = inl e ->
          exists c, last (map Some (trace (issueAll host cs st))) None
                    = Some {| ev_call := c; ev_reply := inl e |}).
Proof.
  revert st. induction cs as [| c cs IH]; intros st; cbn.
  - exists []. split; [reflexivity | split; [reflexivity | discriminate]].
  - destruct (host c st) as [st' [e | v]]; cbn.
    + exists cs. split; [reflexivity |]. split; [discriminate |].
      intros e' [= <-]. exists c. reflexivity.
    + destruct (IH st') as (rest & Hcs & Hok & Hrej). exists rest.
      split; [unfold calls in *; cbn; congruence |]. split; [exact Hok |].
      intros e He. destruct (Hrej e He) as (c' & Hlast).
      exists c'. destruct (trace (issueAll host cs st')); [discriminate | exact Hlast].
Qed.

Lemma calls_returning {A B} (o : Outcome S A) (b : B) :
  calls (andThen o (fun _ st' => {| trace := []; final := st'; result := inr b |}))
  = calls o.
Proof.
  rewrite calls_andThen. destruct (result o); apply app_nil_r.
Qed.

Lemma createOrUpdate_no_reviewer_call (st : S) :
  filter isRequestReviewers
    (calls (run host (createOrUpdate inputs baseRepository headRepository) st)) = [].
Proof.
  unfold createOrUpdate, calls. name_calls.
  repeat first
    [ progress exec
    | match goal with
      | |- context [host ?c ?s] => destruct (host c s) as [? [? | ?]]
      end
    | match goal with
      | |- context [if ?b then _ else _] => destruct b
      end
    | match goal with
      | |- context [match ?l with [] => _ | _ :: _ => _ end] => destruct l
      end ];
    reflexivity.
Qed.

Lemma filter_metadataCalls (n : Z) :
  filter isRequestReviewers (metadataCalls inputs baseRepository n)
  = when (Js.nonempty (i_reviewers inputs) || Js.nonempty (i_teamReviewers inputs))
         (reviewersCall inputs baseRepository n).
Proof.
  unfold metadataCalls, when.
  destruct (Js.truthy (i_milestone inputs));
    destruct (Js.nonempty (i_labels inputs));
    destruct (Js.nonempty (i_assignees inputs));
    destruct (Js.nonempty (i_reviewers inputs) || Js.nonempty (i_teamReviewers inputs))%bool;
    reflexivity.
Qed.

(** A list of calls is issued up to its last element when the host
    fulfils every call before it. *)
Lemma issueAll_complete (good : Call -> bool) (cs : list Call) (c : Call) :
  forallb good cs = true ->
  forall st : S,
    (forall ev, In ev (trace (issueAll host (cs ++ [c]) st)) ->
                good (ev_call ev) = true -> rejection ev = None) ->
    calls (issueAll host (cs ++ [c]) st) = (cs ++ [c])%list.
Proof.
  induction cs as [| c0 cs IH]; intros Hgood st Hok; cbn [app issueAll] in *.
  - destruct (host c st) as [st' [e | v]]; reflexivity.
  - cbn [forallb] in Hgood. apply andb_prop in Hgood. destruct Hgood as (Hc0 & Hcs).
    destruct (host c0 st) as [st' [e | v]].
    + specialize (Hok _ (or_introl eq_refl) Hc0). discriminate Hok.
    + unfold calls in *. cbn [trace map ev_call]. f_equal.
      apply (IH Hcs st'). intros ev Hin. apply Hok. cbn [trace]. now right.
Qed.

(** The reviewer request is issued whenever the host fulfils the metadata
    calls before it. *)
Lemma metadata_all_issued (n : Z) (st : S) :
  (forall ev, In ev (trace (issueAll host (metadataCalls inputs baseRepository n) st)) ->
              isIssueCall (ev_call ev) = true -> rejection ev = None) ->
  (Js.nonempty (i_reviewers inputs) || Js.nonempty (i_teamReviewers inputs))%bool = true ->
  filter isRequestReviewers
    (calls (issueAll host (metadataCalls inputs baseRepository n) st))
  = [reviewersCall inputs baseRepository n].
Proof.
  intros Hok Hsome. unfold metadataCalls in *. rewrite Hsome in *.
  rewrite !app_assoc in *. unfold when at 4 in Hok. unfold when at 4.
  match goal with
  | |- context [issueAll host (?pre ++ [?c])%list st] =>
      assert (Hpre : forallb isIssueCall pre = true);
      [| rewrite (issueAll_complete isIssueCall pre c Hpre st Hok); rewrite filter_app;
         replace (filter isRequestReviewers pre) with (@nil Call); [reflexivity |] ]
  end;
    unfold when;
    destruct (Js.truthy (i_milestone inputs));
    destruct (Js.nonempty (i_labels inputs));
    destruct (Js.nonempty (i_assignees inputs));
    reflexivity.
Qed.

Lemma trace_andThen_first {A B} (o : Outcome S A) (next : A -> S -> Outcome S B)
    (ev : Event) :
  In ev (trace o) -> In ev (trace (andThen o next)).
Proof.
  unfold andThen. destruct (result o); cbn [trace]; [auto |].
  intros Hin. apply in_or_app. now left.
Qed.

Lemma trace_andThen_next {A B} (o : Outcome S A) (next : A -> S -> Outcome S B)
    (a : A) (ev : Event) :
  result o = inr a -> In ev (trace (next a (final o))) -> In ev (trace (andThen o next)).
Proof.
  unfold andThen. intros ->. cbn [trace]. intros Hin. apply in_or_app. now right.
Qed.

(** After [createOrUpdate], the metadata steps are the calls of
    [metadataCalls], issued in order up to the first rejection; the pull
    request is returned when none was rejected. *)
Lemma run_createOrUpdatePullRequest (st : S) :
  run host (createOrUpdatePullRequest inputs baseRepository headRepository) st
  = andThen (run host (createOrUpdate inputs baseRepository headRepository) st)
      (fun pull st' =>
         andThen (issueAll host (metadataCalls inputs baseRepository (number pull)) st')
           (fun _ st'' => {| trace := []; final := st''; result := inr pull |})).
Proof.
  unfold createOrUpdatePullRequest. rewrite run_bind.
  set (o0 := run host (createOrUpdate inputs baseRepository headRepository) st).
  unfold andThen at 1 2. destruct (result o0) as [e | pull]; [reflexivity |].
  match goal with
  | |- context [run host ?p (final o0)] =>
      assert (Hrest : forall st',
                 run host p st'
                 = andThen (issueAll host
                              (metadataCalls inputs baseRepository (number pull)) st')
                     (fun _ st'' => {| trace := []; final := st''; result := inr pull |}))
  end.
  { intros st'. unfold metadataCalls, when. name_calls.
    destruct (Js.truthy (i_milestone inputs));
      destruct (Js.nonempty (i_labels inputs));
      destruct (Js.nonempty (i_assignees inputs));
      destruct (Js.nonempty (i_reviewers inputs));
      destruct (Js.nonempty (i_teamReviewers inputs));
      cbn [orb app issueAll]; unfold andThen; exec;
      repeat (match goal with
              | |- context [host ?c ?s] => destruct (host c s) as [? [? | []]]
              end; exec);
      repeat match goal with
             | |- context [if ?b then _ else _] => destruct b
             end;
      reflexivity. }
  rewrite Hrest. reflexivity.
Qed.

End Metadata.

Lemma after_first_append (sep : ascii) (before after : string) :
  after_first sep before = None ->
  after_first sep (before ++ String sep after) = Some after.
Proof.
  induction before as [| c before IH]; cbn.
  - now rewrite Ascii.eqb_refl.
  - destruct (Ascii.eqb c sep); [discriminate | exact IH].
Qed.

Lemma stripOrgPrefix_strips (org team : string) :
  after_first "/" org = None ->
  stripOrgPrefix (org ++ "/" ++ team) = team.
Proof.
  intros Horg. unfold stripOrgPrefix.
  change (org ++ "/" ++ team) with (org ++ String "/" team).
  now rewrite after_first_append.
Qed.

(** C7: in [createOrUpdatePullRequest] at most one reviewer-request call is
    made; none is made when both the user-reviewer list and the
    team-reviewer list are empty.  If either list is non-empty, then on
    every host on which [createOrUpdate] returns a pull request and the
    milestone, labels and assignees calls of the run are fulfilled, exactly
    one reviewer request is made, for that pull request, whether the host
    fulfils the request or rejects it; in particular exactly one is made
    whenever the call returns.  The request carries the user reviewer names
    unchanged and the team names through [stripOrgPrefixFromTeams], which
    strips the organization prefix of each name; a list that is empty is
    left out of the request. *)
Theorem createOrUpdatePullRequest_reviewer_request {S} (host : Host S) (st : S)
    (inputs : Inputs) (baseRepository headRepository : string) :
  let o := run host (createOrUpdatePullRequest inputs baseRepository headRepository) st in
  let requests := filter isRequestReviewers (calls o) in
  length requests <= 1
  /\ (i_reviewers inputs = [] -> i_teamReviewers inputs = [] -> requests = [])
  /\ (forall pull,
         result (run host (createOrUpdate inputs baseRepository headRepository) st)
         = inr pull ->
         (forall ev, In ev (trace o) -> isIssueCall (ev_call ev) = true ->
                     rejection ev = None) ->
         i_reviewers inputs <> [] \/ i_teamReviewers inputs <> [] ->
         requests
         = [ PullsRequestReviewers {|
               rr_repository := parseRepository baseRepository;
               rr_pull_number := number pull;
               rr_reviewers :=
                 match i_reviewers inputs with
                 | [] => None
                 | _ :: _ => Some (i_reviewers inputs)
                 end;
               rr_team_reviewers :=
                 match i_teamReviewers inputs with
                 | [] => None
                 | _ :: _ => Some (map stripOrgPrefix (i_teamReviewers inputs))
                 end |} ])
  /\ (forall pull,
         result o = inr pull ->
         i_reviewers inputs <> [] \/ i_teamReviewers inputs <> [] ->
         length requests = 1)
  /\ (forall c,
         In c requests ->
         exists n,
           c = PullsRequestReviewers {|
                 rr_repository := parseRepository baseRepository;
                 rr_pull_number := n;
                 rr_reviewers :=
                   match i_reviewers inputs with
                   | [] => None
                   | _ :: _ => Some (i_reviewers inputs)
                   end;
                 rr_team_reviewers :=
                   match i_teamReviewers inputs with
                   | [] => None
                   | _ :: _ => Some (map stripOrgPrefix (i_teamReviewers inputs))
                   end |})
  /\ (forall org team,
         after_first "/" org = None -> stripOrgPrefix (org ++ "/" ++ team) = team).
Proof.
  cbn zeta. rewrite run_createOrUpdatePullRequest.
  pose proof (createOrUpdate_no_reviewer_call host inputs baseRepository headRepository st)
    as Hnone.
  set (o0 := run host (createOrUpdate inputs baseRepository headRepository) st) in *.
  rewrite calls_andThen, filter_app, Hnone. cbn [app].
  destruct (result o0) as [e | pull] eqn:Hfirst; cbn [filter length].
  { repeat apply conj.
    - lia.
    - reflexivity.
    - intros pull Hres. discriminate Hres.
    - intros pull Hres. unfold andThen in Hres. rewrite Hfirst in Hres. discriminate.
    - intros c [].
    - exact stripOrgPrefix_strips. }
  rewrite calls_returning.
  destruct (issueAll_prefix host (metadataCalls inputs baseRepository (number pull))
              (final o0)) as (rest & Hsplit & Hall & _).
  pose proof (filter_metadataCalls inputs baseRepository (number pull)) as Hfilter.
  rewrite Hsplit in Hfilter at 1. rewrite filter_app in Hfilter.
  pose proof (metadata_all_issued host inputs baseRepository (number pull) (final o0))
    as Hissued.
  set (issued := filter isRequestReviewers
                   (calls (issueAll host (metadataCalls inputs baseRepository
                                            (number pull)) (final o0)))) in *.
  assert (Hlen : length issued
                 <= length (when (Js.nonempty (i_reviewers inputs)
                                  || Js.nonempty (i_teamReviewers inputs))
                              (reviewersCall inputs baseRepository (number pull)))).
  { rewrite <- Hfilter, length_app. lia. }
  repeat apply conj.
  - destruct (Js.nonempty (i_reviewers inputs) || Js.nonempty (i_teamReviewers inputs))%bool;
      cbn in Hlen; lia.
  - intros Husers Hteams. rewrite Husers, Hteams in Hlen. cbn in Hlen.
    destruct issued; [reflexivity | cbn in Hlen; lia].
  - intros p Hp Hok Hsome. injection Hp as <-.
    rewrite Hissued.
    + unfold reviewersCall, stripOrgPrefixFromTeams.
      destruct (i_reviewers inputs), (i_teamReviewers inputs); reflexivity.
    + intros ev Hin. apply Hok.
      apply (trace_andThen_next o0 _ pull ev Hfirst). now apply trace_andThen_first.
    + destruct (i_reviewers inputs), (i_teamReviewers inputs); try reflexivity.
      destruct Hsome; contradiction.
  - intros p Hres Hsome. unfold andThen in Hres. rewrite Hfirst in Hres.
    destruct (result (issueAll host (metadataCalls inputs baseRepository (number pull))
                        (final o0))) as [e | []] eqn:Hmeta;
      cbn [result] in Hres; [discriminate |].
    rewrite (Hall eq_refl) in Hfilter. cbn [filter] in Hfilter.
    rewrite app_nil_r in Hfilter. rewrite Hfilter.
    destruct (i_reviewers inputs), (i_teamReviewers inputs); cbn;
      try reflexivity. destruct Hsome; contradiction.
  - intros c Hin.
    assert (Hin' : In c (when (Js.nonempty (i_reviewers inputs)
                               || Js.nonempty (i_teamReviewers inputs))
                           (reviewersCall inputs baseRepository (number pull)))).
    { rewrite <- Hfilter. apply in_or_app. now left. }
    exists (number pull). unfold when in Hin'.
    destruct (Js.nonempty (i_reviewers inputs) || Js.nonempty (i_teamReviewers inputs))%bool;
      [| contradiction].
    destruct Hin' as [<- | []]. unfold reviewersCall, stripOrgPrefixFromTeams.
    destruct (i_reviewers inputs), (i_teamReviewers inputs); reflexivity.
  - exact stripOrgPrefix_strips.
Qed.

Lemma createOrUpdatePullRequest_reviewer_request_witness :
  let request :=
    PullsRequestReviewers {| rr_repository := {| owner := "o"; repo := Some "r" |};
                             rr_pull_number := 1;
                             rr_reviewers := Some ["alice"];
                             rr_team_reviewers := Some ["team-name"] |} in
  let o := run Remote.host (createOrUpdatePullRequest Sample.inputs "o/r" "o/r")
             Remote.empty in
  let updated := run Remote.host (createOrUpdatePullRequest Sample.inputs "o/r" "o/r")
                   Sample.opened in
  let refused := run Sample.reviewersRefused
                   (createOrUpdatePullRequest Sample.inputs "o/r" "o/r")
                   Remote.empty in
  let quiet := run Remote.host (createOrUpdatePullRequest Sample.plain "o/r" "o/r")
                 Remote.empty in
  filter isRequestReviewers (calls o) = [request]
  /\ filter isRequestReviewers (calls updated) = [request]
  /\ (filter isRequestReviewers (calls refused) = [request]
      /\ result refused = inl (Remote.http "Validation Failed"))
  /\ length (filter isRequestReviewers (calls o)) = 1
  /\ filter isRequestReviewers (calls quiet) = []
  /\ stripOrgPrefix ("org" ++ "/" ++ "team-name") = "team-name".
Proof.
  cbn zeta.
  pose proof (createOrUpdatePullRequest_reviewer_request Remote.host Remote.empty
                Sample.inputs "o/r" "o/r") as (_ & _ & Hissued & Hone & _ & Hstrip).
  pose proof (createOrUpdatePullRequest_reviewer_request Remote.host Sample.opened
                Sample.inputs "o/r" "o/r") as (_ & _ & Hupdated & _).
  pose proof (createOrUpdatePullRequest_reviewer_request Sample.reviewersRefused
                Remote.empty Sample.inputs "o/r" "o/r") as (_ & _ & Hrefused & _).
  pose proof (createOrUpdatePullRequest_reviewer_request Remote.host Remote.empty
                Sample.plain "o/r" "o/r") as (_ & Hnone & _).
  cbn zeta in *.
  split; [| split; [| split; [split | split; [| split]]]].
  - apply (Hissued {| number := 1; html_url := "pull/1"; created := true |}).
    + reflexivity.
    + intros ev Hin Hcall. vm_compute in Hin.
      repeat (destruct Hin as [<- | Hin]; [first [reflexivity | discriminate Hcall] |]).
      destruct Hin.
    + left. discriminate.
  - apply (Hupdated {| number := 1; html_url := "pull/1"; created := false |}).
    + reflexivity.
    + intros ev Hin Hcall. vm_compute in Hin.
      repeat (destruct Hin as [<- | Hin]; [first [reflexivity | discriminate Hcall] |]).
      destruct Hin.
    + left. discriminate.
  - apply (Hrefused {| number := 1; html_url := "pull/1"; created := true |}).
    + reflexivity.
    + intros ev Hin Hcall. vm_compute in Hin.
      repeat (destruct Hin as [<- | Hin]; [first [reflexivity | discriminate Hcall] |]).
      destruct Hin.
    + left. discriminate.
  - reflexivity.
  - refine (Hone {| number := 1; html_url := "pull/1"; created := true |} _ _).
    + reflexivity.
    + left. discriminate.
  - apply Hnone; reflexivity.
  - apply Hstrip. reflexivity.
Defined.

(** C8: after [createOrUpdate] has returned a pull request,
    [createOrUpdatePullRequest] issues the metadata calls in the fixed order
    milestone (if specified), labels (if any), assignees (if any), reviewer
    request (if any), each as a call of its own, and stops at the first one
    the host rejects: the log is the log of [createOrUpdate] followed by an
    initial part of that list, the rejected call is the last one issued, and
    nothing is issued to undo an earlier step.  In particular, when the
    milestone call is fulfilled and the labels call is rejected, the run ends
    with that rejection, in the host state the rejected labels call left: the
    milestone stays applied. *)
Theorem createOrUpdatePullRequest_no_rollback {S} (host : Host S) (st : S)
    (inputs : Inputs) (baseRepository headRepository : string) (pull : Pull) :
  let o0 := run host (createOrUpdate inputs baseRepository headRepository) st in
  let o := run host (createOrUpdatePullRequest inputs baseRepository headRepository) st in
  let milestone := IssuesUpdate {| iu_repository := parseRepository baseRepository;
                                   iu_issue_number := number pull;
                                   iu_milestone := i_milestone inputs |} in
  let labels := IssuesAddLabels {| al_repository := parseRepository baseRepository;
                                   al_issue_number := number pull;
                                   al_labels := i_labels inputs |} in
  let assignees := IssuesAddAssignees {| aa_repository := parseRepository baseRepository;
                                         aa_issue_number := number pull;
                                         aa_assignees := i_assignees inputs |} in
  let steps :=
    ((if Js.truthy (i_milestone inputs) then [milestone] else [])
     ++ (if Js.nonempty (i_labels inputs) then [labels] else [])
     ++ (if Js.nonempty (i_assignees inputs) then [assignees] else [])
     ++ (if Js.nonempty (i_reviewers inputs) || Js.nonempty (i_teamReviewers inputs)
         then [reviewersCall inputs baseRepository (number pull)] else []))%list in
  result o0 = inr pull ->
  (exists issued rest,
      steps = (issued ++ rest)%list
      /\ calls o = (calls o0 ++ issued)%list
      /\ (forall returned, result o = inr returned -> returned = pull /\ rest = [])
      /\ (forall e, result o = inl e ->
            exists c, last (map Some (trace o)) None
                      = Some {| ev_call := c; ev_reply := inl e |}))
  /\ (forall st1 st2 e,
         Js.truthy (i_milestone inputs) = true ->
         i_labels inputs <> [] ->
         host milestone (final o0) = (st1, inr tt) ->
         host labels st1 = (st2, inl e) ->
         calls o = (calls o0 ++ [milestone; labels])%list
         /\ result o = inl e
         /\ final o = st2).
Proof.
  cbn zeta. intros Hfirst. rewrite run_createOrUpdatePullRequest.
  set (o0 := run host (createOrUpdate inputs baseRepository headRepository) st) in *.
  change ((if Js.truthy (i_milestone inputs) then _ else _) ++ _)%list
    with (metadataCalls inputs baseRepository (number pull)).
  split.
  - destruct (issueAll_prefix host (metadataCalls inputs baseRepository (number pull))
                (final o0)) as (rest & Hsplit & Hall & Hrej).
    exists (calls (issueAll host (metadataCalls inputs baseRepository (number pull))
                     (final o0))), rest.
    split; [exact Hsplit |]. split.
    { rewrite calls_andThen, Hfirst, calls_returning. reflexivity. }
    unfold andThen. rewrite Hfirst.
    destruct (result (issueAll host (metadataCalls inputs baseRepository (number pull))
                        (final o0))) as [e | []]; cbn [result trace].
    + split; [discriminate |]. intros e' [= <-].
      destruct (Hrej e eq_refl) as (c & Hlast). exists c.
      rewrite map_app, last_app_nonempty; [exact Hlast |].
      destruct (trace (issueAll host _ (final o0))); [discriminate Hlast | discriminate].
    + split; [| discriminate]. intros returned [= <-]. split; [reflexivity | auto].
  - intros st1 st2 e Hm Hl Hms Hls.
    unfold metadataCalls, when, milestoneCall, labelsCall. rewrite Hm.
    destruct (i_labels inputs) as [| l ls] eqn:Hlabels; [contradiction |].
    cbn [Js.nonempty app].
    rewrite calls_andThen, Hfirst, calls_returning. unfold andThen. rewrite Hfirst.
    unfold calls. cbn [issueAll]. rewrite Hms. cbn [issueAll]. rewrite Hls.
    repeat split.
Qed.

Lemma createOrUpdatePullRequest_no_rollback_witness :
  let o0 := run Sample.labelsRefused (createOrUpdate Sample.inputs "o/r" "o/r")
              Remote.empty in
  let o := run Sample.labelsRefused (createOrUpdatePullRequest Sample.inputs "o/r" "o/r")
             Remote.empty in
  (calls o = (calls o0 ++ [ milestoneCall Sample.inputs "o/r" 1;
                            labelsCall Sample.inputs "o/r" 1 ])%list
   /\ result o = inl (Remote.http "Validation Failed")
   /\ final o = fst (Remote.host (milestoneCall Sample.inputs "o/r" 1) (final o0)))
  /\ map Remote.pr_milestone (Remote.pulls (final o)) = [Some 3%Z]
  /\ exists issued rest,
       [ milestoneCall Sample.inputs "o/r" 1;
         labelsCall Sample.inputs "o/r" 1;
         reviewersCall Sample.inputs "o/r" 1 ] = (issued ++ rest)%list
       /\ calls o = (calls o0 ++ issued)%list.
Proof.
  cbn zeta.
  pose proof (createOrUpdatePullRequest_no_rollback Sample.labelsRefused
                Remote.empty Sample.inputs "o/r" "o/r"
                {| number := 1; html_url := "pull/1"; created := true |} eq_refl)
    as (Hprefix & Hlabels).
  cbn zeta in *. repeat apply conj.
  - refine (proj1 (Hlabels _ _ _ _ _ _ _)); first [reflexivity | discriminate].
  - reflexivity.
  - reflexivity.
  - reflexivity.
  - destruct Hprefix as (issued & rest & Hsteps & Hcalls & _).
    exists issued, rest. split; [exact Hsteps | exact Hcalls].
Defined.

(** ** AtomicSignedCommitPusher *)

(** C3: when the query for the target branch answers that it does not exist
    and the query for the base branch answers a ref pointing at hash [H],
    [pushSignedCommit] issues, as its third call, the branch-creation
    mutation naming [refs/heads/<branch>] at [H]; the commit mutation, which
    is issued when that creation is fulfilled (and file changes were
    passed), comes after it and carries [expectedHeadOid = H].  When the
    query for the target branch answers a ref pointing at [H], the commit
    mutation carries [expectedHeadOid = H] and no branch-creation mutation
    is issued. *)
Theorem pushSignedCommit_expected_head {S} (host : Host S) (st : S)
    (branchRepository branch base commitMessage : string)
    (branchFileChanges : option BranchFileChanges) :
  let o := run host (pushSignedCommit branchRepository branch base commitMessage
                       branchFileChanges) st in
  let query name := refQuery branchRepository name in
  let commitOn expectedHead :=
    match branchFileChanges with
    | Some changes =>
        [ GraphqlPushCommit {|
            pv_branchName := branch;
            pv_repoNameWithOwner :=
              fst (Js.split_pieces "/" branchRepository) ++ "/"
                ++ Js.to_string (hd_error (snd (Js.split_pieces "/" branchRepository)));
            pv_headOid := expectedHead;
            pv_commitMessage := commitMessage;
            pv_fileChanges := {| additions := additions changes;
                                 deletions := deletions changes |} |} ]
    | None => []
    end in
  (forall st1 st2 id0 id H,
      host (query branch) st
      = (st1, inr {| repository_id := id0; repository_ref := None |}) ->
      host (query base) st1
      = (st2, inr {| repository_id := id;
                     repository_ref := Some {| target := Some {| oid := H |} |} |}) ->
      let create := GraphqlCreateNewBranch {| nb_repoId := id;
                                              nb_oid := H;
                                              nb_branchName := "refs/heads/" ++ branch |} in
      calls o
      = ([query branch; query base; create]
         ++ match snd (host create st2) with
            | inr _ => commitOn H
            | inl _ => []
            end)%list)
  /\ (forall st1 id H,
         host (query branch) st
         = (st1, inr {| repository_id := id;
                        repository_ref := Some {| target := Some {| oid := H |} |} |}) ->
         calls o = query branch :: commitOn H
         /\ filter isNewBranch (calls o) = []).
Proof.
  cbn zeta. unfold pushSignedCommit, refQuery, calls, refTargetOid, targetOid.
  destruct (Js.split_pieces "/" branchRepository) as [repoOwner rest]. cbn [fst snd].
  split.
  - intros st1 st2 id0 id H Hq Hb. answer Hq. cbn [repository_ref]. answer Hb.
    cbn [repository_ref target oid repository_id]. exec.
    match goal with
    | |- context [host ?c st2] => destruct (host c st2) as [st3 [e | []]]
    end; exec; cbn [map ev_call snd]; [reflexivity |].
    destruct branchFileChanges as [changes |]; exec; [| reflexivity].
    match goal with
    | |- context [host ?c st3] => destruct (host c st3) as [st4 [e | v]]
    end; reflexivity.
  - intros st1 id H Hq. answer Hq.
    cbn [repository_ref target oid]. exec.
    destruct branchFileChanges as [changes |]; exec; [| split; reflexivity].
    match goal with
    | |- context [host ?c st1] => destruct (host c st1) as [st2 [e | v]]
    end; split; reflexivity.
Qed.

Lemma pushSignedCommit_expected_head_witness :
  calls (run Remote.host
           (pushSignedCommit "o/r" "feature" "main" "msg" (Some Sample.noChanges))
           (Sample.withMain "H"))
  = [ refQuery "o/r" "feature";
      refQuery "o/r" "main";
      newBranchCall "R_o" "H" "feature";
      pushCommitCall "o/r" "feature" "H" "msg" Sample.noChanges ]
  /\ (calls (run Remote.host
               (pushSignedCommit "o/r" "feature" "main" "msg" (Some Sample.noChanges))
               (Sample.withFeature "F"))
      = [ refQuery "o/r" "feature";
          pushCommitCall "o/r" "feature" "F" "msg" Sample.noChanges ]
      /\ filter isNewBranch
           (calls (run Remote.host
                     (pushSignedCommit "o/r" "feature" "main" "msg"
                        (Some Sample.noChanges))
                     (Sample.withFeature "F"))) = []).
Proof.
  split.
  - refine (proj1 (pushSignedCommit_expected_head Remote.host (Sample.withMain "H")
                     "o/r" "feature" "main" "msg" (Some Sample.noChanges))
              (Sample.withMain "H") (Sample.withMain "H") "R_o" "R_o" "H" _ _);
      reflexivity.
  - refine (proj2 (pushSignedCommit_expected_head Remote.host (Sample.withFeature "F")
                     "o/r" "feature" "main" "msg" (Some Sample.noChanges))
              (Sample.withFeature "F") "R_o" "F" _); reflexivity.
Defined.

(** ** CommitObjectBuilder *)

Section TreeBuild.

Context {S : Type} (host : Host S).
Variable readFileBase64 : list string -> Settled string.
Variables (repoPath branchRepository : string).


Lemma run_settle_treeObject (change : Change) (st : S) :
  let o := run host
             (settle (treeObjectOf readFileBase64 (parseRepository branchRepository)
                        repoPath change)) st in
  exists r,
    result o = inr r
    /\ forall entry, r = inr entry ->
         exists u,
           uploadFor readFileBase64 repoPath change u
           /\ trace o = uploadEvents branchRepository u
           /\ entry = entryOf change u.
Proof.
  cbn zeta. unfold settle, treeObjectOf, uploadFor.
  change (String.eqb (status change) "A" || String.eqb (status change) "M")%bool
    with (needsBlob change).
  destruct (needsBlob change); exec.
  - destruct (readFileBase64 [repoPath; path change]) as [e | content]; exec.
    + eexists. split; [reflexivity | discriminate].
    + match goal with
      | |- context [host ?c st] => destruct (host c st) as [st' [e | [blobSha]]]
      end; exec.
      * eexists. split; [reflexivity | discriminate].
      * eexists. split; [reflexivity |]. intros entry [= <-].
        exists (Some (content, blobSha)). split; [| split; reflexivity].
        exists content, blobSha. split; reflexivity.
  - eexists. split; [reflexivity |]. intros entry [= <-].
    exists None. repeat split.
Qed.

Lemma run_settle_all (changes : list Change) :
  forall st : S,
    let o := run host
               (settle_all (map (treeObjectOf readFileBase64
                                   (parseRepository branchRepository) repoPath)
                                changes)) st in
    exists rs,
      result o = inr rs
      /\ forall entries, collect rs = inr entries ->
           exists uploads,
             Forall2 (uploadFor readFileBase64 repoPath) changes uploads
             /\ trace o = flat_map (uploadEvents branchRepository) uploads
             /\ entries = entriesOf changes uploads.
Proof.
  induction changes as [| change changes IH]; intros st; cbn zeta.
  - exists []. split; [reflexivity |]. intros entries [= <-].
    exists []. repeat split. constructor.
  - cbn [map settle_all]. rewrite run_bind.
    destruct (run_settle_treeObject change st) as (r & Hr & Hentry).
    unfold andThen. rewrite Hr. cbn [result trace final]. rewrite run_bind.
    destruct (IH (final (run host
                           (settle (treeObjectOf readFileBase64
                                      (parseRepository branchRepository)
                                      repoPath change)) st)))
      as (rs & Hrs & Hentries).
    unfold andThen. rewrite Hrs. cbn [result trace final run ret Monad_Prog].
    exists (r :: rs). split; [reflexivity |].
    intros entries Hcollect. cbn [collect] in Hcollect.
    destruct r as [e | entry]; [discriminate |].
    destruct (collect rs) as [e | entries'] eqn:Hc; [discriminate |].
    injection Hcollect as <-.
    destruct (Hentry entry eq_refl) as (u & Hu & Htu & ->).
    destruct (Hentries entries' eq_refl) as (us & Hus & Htus & ->).
    exists (u :: us). split; [constructor; assumption |]. split; [| reflexivity].
    cbn [flat_map]. rewrite Htu, Htus. now rewrite app_nil_r.
Qed.

Lemma entriesOf_entryFor (changes : list Change) (uploads : list Upload) :
  Forall2 (uploadFor readFileBase64 repoPath) changes uploads ->
  Forall2 entryFor changes (entriesOf changes uploads).
Proof.
  induction 1 as [| change u changes uploads Hu _ IH]; cbn; constructor; [| exact IH].
  unfold entryFor, uploadFor, entryOf in *. cbn.
  repeat split. destruct (needsBlob change).
  - destruct Hu as (content & blobSha & _ & ->). discriminate.
  - now rewrite Hu.
Qed.

End TreeBuild.

(** * Further properties of the helper *)

(** ** RepositoryRef, well-formed and malformed inputs *)

Lemma before_first_append (sep : ascii) (before after : string) :
  after_first sep before = None ->
  before_first sep (before ++ String sep after) = before.
Proof.
  induction before as [| c before IH]; cbn.
  - now rewrite Ascii.eqb_refl.
  - destruct (Ascii.eqb c sep); [discriminate |]. intros H. now rewrite IH.
Qed.

Lemma before_first_slashless (sep : ascii) (s : string) :
  after_first sep s = None -> before_first sep s = s.
Proof.
  induction s as [| c s IH]; cbn; [reflexivity |].
  destruct (Ascii.eqb c sep); [discriminate |]. intros H. now rewrite IH.
Qed.

Lemma parseRepository_pieces (repository : string) :
  parseRepository repository
  = {| owner := before_first "/" repository;
       repo := option_map (before_first "/") (after_first "/" repository) |}.
Proof.
  unfold parseRepository.
  pose proof (split_pieces_first "/" repository) as Hf.
  pose proof (split_pieces_rest "/" repository) as Hr.
  destruct (Js.split_pieces "/" repository) as [w ws]. cbn in Hf, Hr. subst w ws.
  destruct (after_first "/" repository) as [r |]; cbn; [| reflexivity].
  unfold Js.split. rewrite <- (split_pieces_first "/" r).
  destruct (Js.split_pieces "/" r); reflexivity.
Qed.

(** X1: on a well-formed input, [parseRepository] is the inverse of joining
    owner and name with ['/']: when neither contains a ['/'], parsing
    [owner/name] gives back exactly that owner and that name. *)
Theorem parseRepository_join (ownerName repoName : string) :
  slashless ownerName ->
  slashless repoName ->
  parseRepository (ownerName ++ "/" ++ repoName)
  = {| owner := ownerName; repo := Some repoName |}.
Proof.
  unfold slashless. intros Ho Hn. rewrite parseRepository_pieces.
  change (ownerName ++ "/" ++ repoName) with (ownerName ++ String "/" repoName).
  rewrite before_first_append, after_first_append by assumption. cbn.
  now rewrite before_first_slashless.
Qed.

Lemma parseRepository_join_witness :
  parseRepository ("octo" ++ "/" ++ "hello-world")
  = {| owner := "octo"; repo := Some "hello-world" |}.
Proof.
  apply parseRepository_join; reflexivity.
Defined.

(** X2: [parseRepository] rejects nothing: on an input without ['/'] the
    owner is the whole input and the name is undefined, and these are the
    only inputs on which the name is undefined. *)
Theorem parseRepository_undefined_name (repository : string) :
  (slashless repository <-> repo (parseRepository repository) = None)
  /\ (slashless repository ->
      parseRepository repository = {| owner := repository; repo := None |}).
Proof.
  unfold slashless. rewrite parseRepository_pieces. cbn. split.
  - destruct (after_first "/" repository); cbn; split; congruence.
  - intros H. rewrite H. cbn. now rewrite before_first_slashless.
Qed.

Lemma parseRepository_undefined_name_witness :
  parseRepository "hello-world" = {| owner := "hello-world"; repo := None |}.
Proof.
  apply (proj2 (parseRepository_undefined_name "hello-world")). reflexivity.
Defined.

(** ** RefReconciler, errors and ref names *)

(** X7: the rejection of the existence probe is never thrown by
    [createOrUpdateRef], whatever its cause: the call returns or throws
    exactly as the one write that follows the probe is fulfilled or
    rejected, and leaves the host in the state that write left. *)
Theorem createOrUpdateRef_throws_write_only {S} (host : Host S) (st : S)
    (branchRepository branch newHead : string) :
  let o := run host (createOrUpdateRef branchRepository branch newHead) st in
  exists write st1,
    isRefWrite write = true
    /\ nth_error (calls o) 1 = Some write
    /\ st1 = fst (host (getRefCall branchRepository branch) st)
    /\ final o = fst (host write st1)
    /\ result o = match snd (host write st1) with
                  | inl e => inl e
                  | inr _ => inr tt
                  end.
Proof.
  cbn zeta.
  destruct (run_createOrUpdateRef host branchRepository branch newHead st)
    as (Ht & Hf & Hr).
  eexists. eexists. unfold calls. rewrite Ht.
  split; [| split; [reflexivity | split; [reflexivity | split; [exact Hf | exact Hr]]]].
  unfold refWrite. destruct (fulfilled _); reflexivity.
Qed.

Lemma string_length_append (a b : string) :
  String.length (a ++ b) = String.length a + String.length b.
Proof.
  induction a as [| c a IH]; cbn; [reflexivity | now rewrite IH].
Qed.

(** ** PullRequestReconciler, paths and failures *)

(** Case analysis of a run of [createOrUpdate] by the answers of the host:
    one goal per path, the run rewritten to its log, state and result. *)
Ltac createOrUpdate_paths host inputs baseRepository headRepository st :=
  let st1 := fresh "st1" in
  let st2 := fresh "st2" in
  let st3 := fresh "st3" in
  let e := fresh "e" in
  let d := fresh "d" in
  let Hc := fresh "Hc" in
  let He := fresh "He" in
  let Hl := fresh "Hl" in
  let Hu := fresh "Hu" in
  destruct (host (pullsCreateCall inputs baseRepository headRepository) st)
    as [st1 [e | d]] eqn:Hc;
  [ destruct (alreadyExists e) eqn:He;
    [ let e' := fresh "e'" in
      let ps := fresh "ps" in
      destruct (host (pullsListCall inputs baseRepository headRepository) st1)
        as [st2 [e' | ps]] eqn:Hl;
      [ rewrite (createOrUpdate_listing_failed host inputs baseRepository headRepository
                   st st1 st2 e e' Hc He Hl)
      | let p := fresh "p" in
        destruct ps as [| p ps];
        [ rewrite (createOrUpdate_no_open host inputs baseRepository headRepository
                     st st1 st2 e Hc He Hl)
        | let r := fresh "r" in
          destruct (host (pullsUpdateCall inputs baseRepository (pd_number p)) st2)
            as [st3 r] eqn:Hu;
          rewrite (createOrUpdate_updated host inputs baseRepository headRepository
                     st st1 st2 st3 e p ps r Hc He Hl Hu) ] ]
    | rewrite (createOrUpdate_rethrown host inputs baseRepository headRepository
                 st st1 e Hc He) ]
  | rewrite (createOrUpdate_created host inputs baseRepository headRepository
               st st1 d Hc) ].

(** X3: [createOrUpdate] always starts with the creation call and issues at
    most three calls, all of them pull-request calls.  When it returns, the
    [created] flag tells which path was taken: [true] exactly when the
    creation call was fulfilled, and then it was the only call; [false]
    exactly when the log is creation, listing and update of the first
    listed pull request. *)
Theorem createOrUpdate_flag_tells_path {S} (host : Host S) (st : S)
    (inputs : Inputs) (baseRepository headRepository : string) :
  let o := run host (createOrUpdate inputs baseRepository headRepository) st in
  let create := pullsCreateCall inputs baseRepository headRepository in
  hd_error (calls o) = Some create
  /\ length (calls o) <= 3
  /\ forallb isPullCall (calls o) = true
  /\ (forall pull,
         result o = inr pull ->
         (created pull = true <-> fulfilled (snd (host create st)) = true)
         /\ (created pull = true -> calls o = [create])
         /\ (created pull = false ->
             exists n, calls o = [ create;
                                   pullsListCall inputs baseRepository headRepository;
                                   pullsUpdateCall inputs baseRepository n ])).
Proof.
  cbn zeta.
  createOrUpdate_paths host inputs baseRepository headRepository st;
    unfold calls; cbn [trace result map ev_call hd_error length forallb isPullCall
                       pullsCreateCall pullsListCall pullsUpdateCall andb snd fulfilled];
    (split; [reflexivity |]); (split; [lia |]); (split; [reflexivity |]);
    intros pull Hres; try discriminate Hres.
  - destruct r as [e' | d]; [discriminate Hres |]. injection Hres as <-. cbn.
    repeat split; try discriminate. intros _. exists (pd_number p). reflexivity.
  - injection Hres as <-. cbn. repeat split; discriminate.
Qed.

Lemma createOrUpdate_flag_tells_path_witness :
  let o := run Remote.host (createOrUpdate Sample.inputs "o/r" "o/r") Sample.opened in
  exists n, calls o = [ pullsCreateCall Sample.inputs "o/r" "o/r";
                        pullsListCall Sample.inputs "o/r" "o/r";
                        pullsUpdateCall Sample.inputs "o/r" n ].
Proof.
  cbn zeta.
  refine (proj2 (proj2 (proj2 (proj2 (proj2
            (createOrUpdate_flag_tells_path Remote.host Sample.opened
               Sample.inputs "o/r" "o/r")))
            {| number := 1; html_url := "pull/1"; created := false |} _)) _);
    reflexivity.
Defined.

(** X4: in the reconciliation path of [createOrUpdate] the duplicate error
    of the creation is dropped and a later failure is thrown in its place:
    a rejected listing is thrown with no update issued, a rejected update is
    thrown after the three calls. *)
Theorem createOrUpdate_reconciliation_failure {S} (host : Host S) (st : S)
    (inputs : Inputs) (baseRepository headRepository : string) :
  let o := run host (createOrUpdate inputs baseRepository headRepository) st in
  let create := pullsCreateCall inputs baseRepository headRepository in
  let listing := pullsListCall inputs baseRepository headRepository in
  (forall st1 st2 duplicate e,
      host create st = (st1, inl duplicate) ->
      alreadyExists duplicate = true ->
      host listing st1 = (st2, inl e) ->
      calls o = [create; listing] /\ result o = inl e /\ final o = st2)
  /\ (forall st1 st2 st3 duplicate p ps e,
         host create st = (st1, inl duplicate) ->
         alreadyExists duplicate = true ->
         host listing st1 = (st2, inr (p :: ps)) ->
         host (pullsUpdateCall inputs baseRepository (pd_number p)) st2 = (st3, inl e) ->
         calls o = [create; listing; pullsUpdateCall inputs baseRepository (pd_number p)]
         /\ result o = inl e
         /\ final o = st3).
Proof.
  cbn zeta. split.
  - intros st1 st2 duplicate e Hc He Hl.
    rewrite (createOrUpdate_listing_failed host inputs baseRepository headRepository
               st st1 st2 duplicate e Hc He Hl).
    repeat split.
  - intros st1 st2 st3 duplicate p ps e Hc He Hl Hu.
    rewrite (createOrUpdate_updated host inputs baseRepository headRepository
               st st1 st2 st3 duplicate p ps (inl e) Hc He Hl Hu).
    repeat split.
Qed.

Lemma createOrUpdate_reconciliation_failure_witness :
  let o := run (Remote.refusing Sample.isList (Remote.http "Server Error")
                  Sample.staleDuplicate)
             (createOrUpdate Sample.inputs "o/r" "o/r") Remote.empty in
  calls o = [ pullsCreateCall Sample.inputs "o/r" "o/r";
              pullsListCall Sample.inputs "o/r" "o/r" ]
  /\ result o = inl (Remote.http "Server Error")
  /\ final o = Remote.empty.
Proof.
  cbn zeta.
  refine (proj1 (createOrUpdate_reconciliation_failure
                   (Remote.refusing Sample.isList (Remote.http "Server Error")
                      Sample.staleDuplicate)
                   Remote.empty Sample.inputs "o/r" "o/r")
            Remote.empty Remote.empty Sample.duplicate (Remote.http "Server Error")
            _ _ _); reflexivity.
Defined.

(** X5: with no milestone (the number 0), no labels, no assignees and no
    reviewers of either kind, [createOrUpdatePullRequest] is
    [createOrUpdate]: the same log, the same final host state, the same
    result. *)
Theorem createOrUpdatePullRequest_without_metadata {S} (host : Host S) (st : S)
    (inputs : Inputs) (baseRepository headRepository : string) :
  i_milestone inputs = 0%Z ->
  i_labels inputs = [] ->
  i_assignees inputs = [] ->
  i_reviewers inputs = [] ->
  i_teamReviewers inputs = [] ->
  run host (createOrUpdatePullRequest inputs baseRepository headRepository) st
  = run host (createOrUpdate inputs baseRepository headRepository) st.
Proof.
  intros Hm Hl Ha Hr Ht. rewrite run_createOrUpdatePullRequest.
  unfold metadataCalls. rewrite Hm, Hl, Ha, Hr, Ht. cbn [Js.truthy Js.nonempty Z.eqb negb
    orb when app issueAll].
  unfold andThen. cbn [result trace final].
  destruct (run host (createOrUpdate inputs baseRepository headRepository) st)
    as [t f [e | pull]]; cbn; [reflexivity |]. now rewrite !app_nil_r.
Qed.

Lemma createOrUpdatePullRequest_without_metadata_witness :
  run Remote.host (createOrUpdatePullRequest Sample.plain "o/r" "o/r") Remote.empty
  = run Remote.host (createOrUpdate Sample.plain "o/r" "o/r") Remote.empty.
Proof.
  apply createOrUpdatePullRequest_without_metadata; reflexivity.
Defined.

(** X6: [createOrUpdatePullRequest] adds to [createOrUpdate] only: when
    [createOrUpdate] throws, the whole call is that run, with no metadata
    call; otherwise its log is extended by calls none of which creates,
    lists or updates a pull request, and the pull request returned at the
    end is the one [createOrUpdate] returned, unchanged. *)
Theorem createOrUpdatePullRequest_extends_createOrUpdate {S} (host : Host S) (st : S)
    (inputs : Inputs) (baseRepository headRepository : string) :
  let o0 := run host (createOrUpdate inputs baseRepository headRepository) st in
  let o := run host (createOrUpdatePullRequest inputs baseRepository headRepository) st in
  (forall e, result o0 = inl e -> o = o0)
  /\ (forall pull, result o = inr pull -> result o0 = inr pull)
  /\ exists more,
       calls o = (calls o0 ++ more)%list
       /\ forallb (fun c => negb (isPullCall c)) more = true
       /\ length more <= 4.
Proof.
  cbn zeta. rewrite run_createOrUpdatePullRequest.
  set (o0 := run host (createOrUpdate inputs baseRepository headRepository) st).
  repeat apply conj.
  - intros e He. unfold andThen. rewrite He. destruct o0; cbn in *. now subst.
  - intros pull. unfold andThen. destruct (result o0) as [e | p]; [discriminate |].
    destruct (result (issueAll host _ (final o0))); cbn; congruence.
  - rewrite calls_andThen. destruct (result o0) as [e | p].
    + exists []. repeat split. cbn. lia.
    + rewrite calls_returning.
      destruct (issueAll_prefix host (metadataCalls inputs baseRepository (number p))
                  (final o0)) as (rest & Hsplit & _).
      exists (calls (issueAll host (metadataCalls inputs baseRepository (number p))
                       (final o0))).
      split; [reflexivity |].
      assert (Hall : forallb (fun c => negb (isPullCall c))
                       (metadataCalls inputs baseRepository (number p)) = true
                     /\ length (metadataCalls inputs baseRepository (number p)) <= 4).
      { unfold metadataCalls, when.
        destruct (Js.truthy _), (Js.nonempty (i_labels inputs)),
          (Js.nonempty (i_assignees inputs)),
          (Js.nonempty (i_reviewers inputs) || Js.nonempty (i_teamReviewers inputs))%bool;
          cbn; split; (reflexivity || lia). }
      destruct Hall as (Hnone & Hlen). rewrite Hsplit in Hnone, Hlen.
      rewrite forallb_app in Hnone. rewrite length_app in Hlen.
      apply andb_prop in Hnone. split; [exact (proj1 Hnone) | lia].
Qed.

Lemma createOrUpdatePullRequest_extends_createOrUpdate_witness :
  run Sample.serverDown (createOrUpdatePullRequest Sample.inputs "o/r" "o/r") Remote.empty
  = run Sample.serverDown (createOrUpdate Sample.inputs "o/r" "o/r") Remote.empty.
Proof.
  refine (proj1 (createOrUpdatePullRequest_extends_createOrUpdate Sample.serverDown
                   Remote.empty Sample.inputs "o/r" "o/r")
            (Remote.http "Server Error") _).
  reflexivity.
Defined.

(** ** AtomicSignedCommitPusher, failures and edge inputs *)

(** Case analysis of a run by the answers of the host, one call after the
    other; an answer to a ref query is opened down to its target hash. *)
Ltac host_paths host :=
  repeat first
    [ progress exec
    | match goal with
      | |- context [host (GraphqlGetRefId ?v) ?s] =>
          destruct (host (GraphqlGetRefId v) s) as [? [? | [? [[[[?] |]] |]]]]
      end
    | match goal with
      | |- context [host ?c ?s] => destruct (host c s) as [? [? | ?]]
      end ].

(** Membership in a log that is written out. *)
Ltac in_log :=
  repeat match goal with
         | H : In _ (_ :: _) |- _ => destruct H as [<- | H]
         | H : In _ [] |- _ => destruct H
         end.

(** X9: [pushSignedCommit] catches nothing and retries nothing: it issues at
    most four calls and at most one commit mutation; the rejection of any
    call, the expected-head rejection of the commit mutation included, is
    thrown unchanged and ends the run; and it returns only after a commit
    mutation that was fulfilled, which is its last call. *)
Theorem pushSignedCommit_no_retry {S} (host : Host S) (st : S)
    (branchRepository branch base commitMessage : string)
    (branchFileChanges : option BranchFileChanges) :
  let o := run host (pushSignedCommit branchRepository branch base commitMessage
                       branchFileChanges) st in
  length (calls o) <= 4
  /\ length (filter isPushCommit (calls o)) <= 1
  /\ (forall ev e, In ev (trace o) -> rejection ev = Some e ->
        result o = inl e /\ last (map Some (trace o)) None = Some ev)
  /\ (result o = inr tt ->
      exists ev, last (map Some (trace o)) None = Some ev
                 /\ isPushCommit (ev_call ev) = true
                 /\ rejection ev = None).
Proof.
  cbn zeta. unfold pushSignedCommit, refTargetOid, targetOid, calls.
  destruct (Js.split_pieces "/" branchRepository) as [repoOwner rest].
  destruct branchFileChanges as [changes |];
    host_paths host;
    cbn [map ev_call filter isPushCommit length last];
    (split; [lia |]); (split; [lia |]);
    (split;
     [ intros ev e' Hin Hrej; in_log; cbn in Hrej;
       first [discriminate Hrej | injection Hrej as <-; split; reflexivity]
     | intros Hres; first [discriminate Hres | eexists; repeat split ] ]).
Qed.

Lemma pushSignedCommit_no_retry_witness :
  let o := run Sample.staleHead
             (pushSignedCommit "o/r" "feature" "main" "msg" (Some Sample.noChanges))
             (Sample.withFeature "F") in
  result o = inl (Remote.http "Expected branch to point to another commit")
  /\ length (filter isPushCommit (calls o)) = 1.
Proof.
  cbn zeta. split; [| reflexivity].
  refine (proj1 (proj1 (proj2 (proj2
            (pushSignedCommit_no_retry Sample.staleHead (Sample.withFeature "F")
               "o/r" "feature" "main" "msg" (Some Sample.noChanges))))
            {| ev_call := pushCommitCall "o/r" "feature" "F" "msg" Sample.noChanges;
               ev_reply := inl (Remote.http "Expected branch to point to another commit") |}
            (Remote.http "Expected branch to point to another commit") _ _)).
  - right. left. reflexivity.
  - reflexivity.
Defined.

(** X10: [pushSignedCommit] reads the target hash through the non-null
    assertions without a guard.  When the base branch does not exist
    either, or when the ref found (the branch, or else the base) has no
    target, it throws a [TypeError] after the queries and issues no
    mutation: no branch is created and nothing is committed. *)
Theorem pushSignedCommit_null_ref {S} (host : Host S) (st : S)
    (branchRepository branch base commitMessage : string)
    (branchFileChanges : option BranchFileChanges) :
  let o := run host (pushSignedCommit branchRepository branch base commitMessage
                       branchFileChanges) st in
  let query name := refQuery branchRepository name in
  let typeError := exists thrown, result o = inl thrown /\ err_name thrown = "TypeError" in
  (forall st1 st2 id0 id,
      host (query branch) st
      = (st1, inr {| repository_id := id0; repository_ref := None |}) ->
      host (query base) st1
      = (st2, inr {| repository_id := id; repository_ref := None |}) ->
      calls o = [query branch; query base] /\ final o = st2 /\ typeError)
  /\ (forall st1 st2 id0 id,
         host (query branch) st
         = (st1, inr {| repository_id := id0; repository_ref := None |}) ->
         host (query base) st1
         = (st2, inr {| repository_id := id;
                        repository_ref := Some {| target := None |} |}) ->
         calls o = [query branch; query base] /\ final o = st2 /\ typeError)
  /\ (forall st1 id,
         host (query branch) st
         = (st1, inr {| repository_id := id;
                        repository_ref := Some {| target := None |} |}) ->
         calls o = [query branch] /\ final o = st1 /\ typeError).
Proof.
  cbn zeta. unfold pushSignedCommit, refQuery, calls, refTargetOid, targetOid.
  destruct (Js.split_pieces "/" branchRepository) as [repoOwner rest]. cbn [fst snd].
  repeat apply conj.
  - intros st1 st2 id0 id Hq Hb. answer Hq. answer Hb.
    repeat split. eexists. split; reflexivity.
  - intros st1 st2 id0 id Hq Hb. answer Hq. answer Hb.
    repeat split. eexists. split; reflexivity.
  - intros st1 id Hq. answer Hq.
    repeat split. eexists. split; reflexivity.
Qed.

Lemma pushSignedCommit_null_ref_witness :
  let o := run Remote.host
             (pushSignedCommit "o/r" "feature" "main" "msg" (Some Sample.noChanges))
             Remote.empty in
  calls o = [refQuery "o/r" "feature"; refQuery "o/r" "main"]
  /\ final o = Remote.empty
  /\ exists thrown, result o = inl thrown /\ err_name thrown = "TypeError".
Proof.
  cbn zeta.
  refine (proj1 (pushSignedCommit_null_ref Remote.host Remote.empty
                   "o/r" "feature" "main" "msg" (Some Sample.noChanges))
            Remote.empty Remote.empty "R_o" "R_o" _ _); reflexivity.
Defined.

(** X11: [branchFileChanges] is optional and read through [!].  When it is
    left out, [pushSignedCommit] never issues the commit mutation and never
    returns normally; the branch is created all the same: with the branch
    absent, the base at [H] and the creation fulfilled, the run ends with a
    [TypeError] in the host state that the branch creation left. *)
Theorem pushSignedCommit_without_changes {S} (host : Host S) (st : S)
    (branchRepository branch base commitMessage : string) :
  let o := run host (pushSignedCommit branchRepository branch base commitMessage None)
             st in
  let query name := refQuery branchRepository name in
  filter isPushCommit (calls o) = []
  /\ result o <> inr tt
  /\ (forall st1 st2 st3 id0 id H,
         host (query branch) st
         = (st1, inr {| repository_id := id0; repository_ref := None |}) ->
         host (query base) st1
         = (st2, inr {| repository_id := id;
                        repository_ref := Some {| target := Some {| oid := H |} |} |}) ->
         host (newBranchCall id H branch) st2 = (st3, inr tt) ->
         calls o = [query branch; query base; newBranchCall id H branch]
         /\ final o = st3
         /\ exists thrown, result o = inl thrown /\ err_name thrown = "TypeError").
Proof.
  cbn zeta. unfold pushSignedCommit, refQuery, newBranchCall, calls, refTargetOid, targetOid.
  destruct (Js.split_pieces "/" branchRepository) as [repoOwner rest]. cbn [fst snd].
  repeat apply conj.
  - host_paths host; reflexivity.
  - host_paths host; discriminate.
  - intros st1 st2 st3 id0 id H Hq Hb Hn. answer Hq. answer Hb. answer Hn.
    repeat split. eexists. split; reflexivity.
Qed.

Lemma pushSignedCommit_without_changes_witness :
  let o := run Remote.host (pushSignedCommit "o/r" "feature" "main" "msg" None)
             (Sample.withMain "H") in
  (calls o = [refQuery "o/r" "feature"; refQuery "o/r" "main";
              newBranchCall "R_o" "H" "feature"]
   /\ final o = Remote.set_ref "refs/heads/feature" "H" (Sample.withMain "H")
   /\ exists thrown, result o = inl thrown /\ err_name thrown = "TypeError")
  /\ Remote.resolve "feature" (final o) = Some "H".
Proof.
  cbn zeta. split; [| reflexivity].
  refine (proj2 (proj2 (pushSignedCommit_without_changes Remote.host (Sample.withMain "H")
                          "o/r" "feature" "main" "msg"))
            (Sample.withMain "H") (Sample.withMain "H") _ "R_o" "R_o" "H" _ _ _);
    reflexivity.
Defined.

Lemma split_pieces_join (ownerName repoName : string) :
  slashless ownerName ->
  slashless repoName ->
  Js.split_pieces "/" (ownerName ++ "/" ++ repoName) = (ownerName, [repoName]).
Proof.
  unfold slashless. intros Ho Hn.
  pose proof (split_pieces_first "/" (ownerName ++ "/" ++ repoName)) as Hf.
  pose proof (split_pieces_rest "/" (ownerName ++ "/" ++ repoName)) as Hr.
  change (ownerName ++ "/" ++ repoName) with (ownerName ++ String "/" repoName) in *.
  rewrite before_first_append in Hf by assumption.
  rewrite after_first_append in Hr by assumption.
  destruct (Js.split_pieces "/" (ownerName ++ String "/" repoName)) as [w ws].
  cbn in Hf, Hr. subst w ws. f_equal. unfold Js.split.
  pose proof (split_pieces_first "/" repoName) as Hf'.
  pose proof (split_pieces_rest "/" repoName) as Hr'.
  rewrite before_first_slashless in Hf' by assumption. rewrite Hn in Hr'.
  destruct (Js.split_pieces "/" repoName) as [w ws]. cbn in Hf', Hr'. now subst.
Qed.

Lemma split_pieces_slashless (s : string) :
  slashless s -> Js.split_pieces "/" s = (s, []).
Proof.
  unfold slashless. intros Hs.
  pose proof (split_pieces_first "/" s) as Hf.
  pose proof (split_pieces_rest "/" s) as Hr.
  rewrite before_first_slashless in Hf by assumption. rewrite Hs in Hr.
  destruct (Js.split_pieces "/" s) as [w ws]. cbn in Hf, Hr. now subst.
Qed.

(** X12: the commit mutation of [pushSignedCommit] names the repository by
    joining the first two pieces of [branchRepository] again.  For a
    well-formed [owner/name] the mutation carries [branchRepository] itself;
    for an input without ['/'] it carries the input followed by
    [/undefined].  In both cases it carries the branch and the commit
    message as given. *)
Theorem pushSignedCommit_repository_name {S} (host : Host S) (st : S)
    (branchRepository branch base commitMessage : string)
    (branchFileChanges : option BranchFileChanges) (v : PushCommitVars) :
  let o := run host (pushSignedCommit branchRepository branch base commitMessage
                       branchFileChanges) st in
  In (GraphqlPushCommit v) (calls o) ->
  pv_branchName v = branch
  /\ pv_commitMessage v = commitMessage
  /\ (forall ownerName repoName,
         branchRepository = ownerName ++ "/" ++ repoName ->
         slashless ownerName -> slashless repoName ->
         pv_repoNameWithOwner v = branchRepository)
  /\ (slashless branchRepository ->
      pv_repoNameWithOwner v = branchRepository ++ "/undefined").
Proof.
  cbn zeta. intros Hin.
  assert (Hv : pv_branchName v = branch
               /\ pv_commitMessage v = commitMessage
               /\ pv_repoNameWithOwner v
                  = fst (Js.split_pieces "/" branchRepository) ++ "/"
                    ++ Js.to_string (hd_error (snd (Js.split_pieces "/" branchRepository)))).
  { revert Hin. unfold pushSignedCommit, calls, refTargetOid, targetOid.
    destruct (Js.split_pieces "/" branchRepository) as [repoOwner rest].
    destruct branchFileChanges as [changes |];
      host_paths host; cbn [map ev_call fst snd];
      intros Hin;
      repeat match goal with
             | H : In _ (_ :: _) |- _ =>
                 let H' := fresh in
                 destruct H as [H' | H];
                 [ first [discriminate H' | injection H' as <-; repeat split] |]
             | H : In _ [] |- _ => destruct H
             end. }
  destruct Hv as (Hb & Hm & Hr). split; [exact Hb |]. split; [exact Hm |]. split.
  - intros ownerName repoName -> Ho Hn. rewrite Hr, split_pieces_join by assumption.
    reflexivity.
  - intros Hs. rewrite Hr, split_pieces_slashless by assumption. reflexivity.
Qed.

Lemma pushSignedCommit_repository_name_witness :
  exists v,
    In (GraphqlPushCommit v)
       (calls (run Remote.host
                 (pushSignedCommit ("o" ++ "/" ++ "r") "feature" "main" "msg"
                    (Some Sample.noChanges))
                 (Sample.withFeature "F")))
    /\ pv_repoNameWithOwner v = "o" ++ "/" ++ "r".
Proof.
  assert (Hin : In (pushCommitCall "o/r" "feature" "F" "msg" Sample.noChanges)
                  (calls (run Remote.host
                            (pushSignedCommit ("o" ++ "/" ++ "r") "feature" "main" "msg"
                               (Some Sample.noChanges))
                            (Sample.withFeature "F"))))
    by (right; left; reflexivity).
  eexists. split; [exact Hin |].
  refine (proj1 (proj2 (proj2
            (pushSignedCommit_repository_name Remote.host (Sample.withFeature "F")
               ("o" ++ "/" ++ "r") "feature" "main" "msg" (Some Sample.noChanges)
               _ Hin)))
            "o" "r" _ _ _); reflexivity.
Defined.

(** ** CommitObjectBuilder, uploads and failures *)

Section Uploads.

Context {S : Type} (host : Host S).
Variable readFileBase64 : list string -> Settled string.
Variables (repoPath branchRepository : string).

Lemma run_settle_treeObject_log (change : Change) (st : S) :
  let o := run host
             (settle (treeObjectOf readFileBase64 (parseRepository branchRepository)
                        repoPath change)) st in
  calls o = uploadCallsOf readFileBase64 repoPath branchRepository [change]
  /\ exists r,
       result o = inr r
       /\ ((exists ev, In ev (trace o) /\ rejection ev <> None) -> exists e, r = inl e)
       /\ (forall e, needsBlob change = true ->
             readFileBase64 [repoPath; path change] = inl e -> r = inl e)
       /\ (needsBlob change = false ->
           trace o = [] /\ final o = st /\ r = inr (removalEntry change))
       /\ (forall e, r = inl e ->
             (needsBlob change = true
              /\ exists e0, readFileBase64 [repoPath; path change] = inl e0)
             \/ (exists ev, In ev (trace o) /\ rejection ev <> None)).
Proof.
  cbn zeta. unfold settle, treeObjectOf, uploadCallsOf, uploadCall, calls.
  change (String.eqb (status change) "A" || String.eqb (status change) "M")%bool
    with (needsBlob change).
  cbn [flat_map]. rewrite app_nil_r.
  destruct (needsBlob change); exec.
  - destruct (readFileBase64 [repoPath; path change]) as [e | content]; exec.
    + split; [reflexivity |]. eexists. split; [reflexivity |].
      split; [intros (ev & [] & _) |]. split; [congruence |].
      split; [discriminate |]. intros e' _. left. eauto.
    + match goal with
      | |- context [host ?c st] => destruct (host c st) as [st' [e | [blobSha]]]
      end; exec; (split; [reflexivity |]); eexists; (split; [reflexivity |]).
      * split; [eauto |]. split; [discriminate |]. split; [discriminate |].
        intros e' _. right. eexists. split; [left; reflexivity | discriminate].
      * split; [| split; [discriminate | split; discriminate]].
        intros (ev & [<- | []] & Hrej). now contradiction Hrej.
  - split; [reflexivity |]. eexists. split; [reflexivity |].
    split; [intros (ev & [] & _) |]. split; [discriminate |].
    split; [intros _; repeat split | discriminate].
Qed.

Lemma uploadCallsOf_cons (change : Change) (changes : list Change) :
  uploadCallsOf readFileBase64 repoPath branchRepository (change :: changes)
  = (uploadCallsOf readFileBase64 repoPath branchRepository [change]
     ++ uploadCallsOf readFileBase64 repoPath branchRepository changes)%list.
Proof.
  unfold uploadCallsOf. cbn [flat_map]. now rewrite app_nil_r.
Qed.

Lemma uploadCallsOf_blobs (changes : list Change) :
  forallb isBlobUpload
    (uploadCallsOf readFileBase64 repoPath branchRepository changes) = true.
Proof.
  induction changes as [| change changes IH]; [reflexivity |].
  rewrite uploadCallsOf_cons, forallb_app, IH, andb_true_r.
  unfold uploadCallsOf. cbn [flat_map].
  destruct (needsBlob change); [| reflexivity].
  destruct (readFileBase64 [repoPath; path change]); reflexivity.
Qed.

Lemma run_settle_all_log (changes : list Change) :
  forall st : S,
    let o := run host
               (settle_all (map (treeObjectOf readFileBase64
                                   (parseRepository branchRepository) repoPath)
                                changes)) st in
    calls o = uploadCallsOf readFileBase64 repoPath branchRepository changes
    /\ exists rs,
         result o = inr rs
         /\ ((exists ev, In ev (trace o) /\ rejection ev <> None) ->
             exists e, collect rs = inl e)
         /\ ((exists change e, In change changes /\ needsBlob change = true
                               /\ readFileBase64 [repoPath; path change] = inl e) ->
             exists e, collect rs = inl e)
         /\ (Forall (fun change => needsBlob change = false) changes ->
             trace o = [] /\ final o = st
             /\ collect rs = inr (map removalEntry changes))
         /\ (forall e, collect rs = inl e ->
               (exists change e0, In change changes /\ needsBlob change = true
                                  /\ readFileBase64 [repoPath; path change] = inl e0)
               \/ (exists ev, In ev (trace o) /\ rejection ev <> None)).
Proof.
  induction changes as [| change changes IH]; intros st; cbn zeta.
  - split; [reflexivity |]. exists []. split; [reflexivity |].
    split; [intros (ev & [] & _) |]. split; [intros (c & e & [] & _) |].
    split; [intros _; repeat split | discriminate].
  - cbn [map settle_all]. rewrite run_bind.
    destruct (run_settle_treeObject_log change st)
      as (Hcalls & r & Hr & Hrej & Hread & Hplain & Hwhy).
    cbn zeta in *.
    set (first := run host (settle (treeObjectOf readFileBase64
                                      (parseRepository branchRepository)
                                      repoPath change)) st) in *.
    unfold andThen at 1 2 3 4 5 6. rewrite Hr. cbn [result trace final].
    rewrite run_bind.
    destruct (IH (final first))
      as (Hcalls' & rs & Hrs & Hrej' & Hread' & Hplain' & Hwhy').
    cbn zeta in *.
    set (others := run host (settle_all (map (treeObjectOf readFileBase64
                                                (parseRepository branchRepository)
                                                repoPath) changes)) (final first)) in *.
    unfold andThen. rewrite Hrs. cbn [result trace final run ret Monad_Prog].
    rewrite app_nil_r. split.
    { unfold calls in *. cbn [trace]. rewrite map_app, Hcalls, Hcalls'.
      symmetry. apply uploadCallsOf_cons. }
    exists (r :: rs). split; [reflexivity |]. cbn [collect].
    split; [| split; [| split]].
    + intros (ev & Hin & Hne). apply in_app_or in Hin. destruct Hin as [Hin | Hin].
      * destruct Hrej as (e & ->); [eauto | eauto].
      * destruct Hrej' as (e & He); [eauto |]. rewrite He.
        destruct r; eauto.
    + intros (c & e & [<- | Hin] & Hneeds & Hfail).
      * rewrite (Hread e Hneeds Hfail). eauto.
      * destruct Hread' as (e' & He'); [eauto |]. rewrite He'. destruct r; eauto.
    + intros Hall. inversion Hall as [| ? ? Hhead Htail]; subst.
      destruct (Hplain Hhead) as (Ht & Hf & ->).
      rewrite Hf in *. destruct (Hplain' Htail) as (Ht' & Hf' & ->).
      rewrite Ht, Ht'. repeat split. exact Hf'.
    + intros e He. destruct r as [e1 | entry].
      * destruct (Hwhy e1 eq_refl) as [(Hneeds & e0 & Hfail) | (ev & Hin & Hne)].
        -- left. exists change, e0. split; [now left | split; assumption].
        -- right. exists ev. split; [apply in_or_app; now left | exact Hne].
      * destruct (collect rs) as [e2 | entries]; [| discriminate He].
        destruct (Hwhy' e2 eq_refl) as [(c & e0 & Hin & Hneeds & Hfail) | (ev & Hin & Hne)].
        -- left. exists c, e0. split; [now right | split; assumption].
        -- right. exists ev. split; [apply in_or_app; now right | exact Hne].
Qed.

Lemma immediate_treeObjectOf (change : Change) :
  immediate (treeObjectOf readFileBase64 (parseRepository branchRepository)
               repoPath change)
  = if needsBlob change
    then match readFileBase64 [repoPath; path change] with
         | inl e => Some e
         | inr _ => None
         end
    else None.
Proof.
  unfold treeObjectOf.
  change (String.eqb (status change) "A" || String.eqb (status change) "M")%bool
    with (needsBlob change).
  destruct (needsBlob change); [| reflexivity].
  destruct (readFileBase64 [repoPath; path change]); reflexivity.
Qed.

Lemma first_immediate_uploads (changes : list Change) :
  match first_immediate (map (treeObjectOf readFileBase64
                                (parseRepository branchRepository) repoPath) changes) with
  | Some e => exists change, In change changes /\ needsBlob change = true
                             /\ readFileBase64 [repoPath; path change] = inl e
  | None => forall change e, In change changes -> needsBlob change = true ->
                             readFileBase64 [repoPath; path change] <> inl e
  end.
Proof.
  induction changes as [| change changes IH]; cbn [map first_immediate].
  - intros c e [].
  - rewrite immediate_treeObjectOf.
    destruct (needsBlob change) eqn:Hneeds.
    + destruct (readFileBase64 [repoPath; path change]) as [e | content] eqn:Hread.
      * exists change. split; [now left | split; assumption].
      * destruct (first_immediate _) as [e |].
        -- destruct IH as (c & Hin & H). exists c. split; [now right | exact H].
        -- intros c e [<- | Hin] Hc; [congruence | now apply IH].
    + destruct (first_immediate _) as [e |].
      * destruct IH as (c & Hin & H). exists c. split; [now right | exact H].
      * intros c e [<- | Hin] Hc; [congruence | now apply IH].
Qed.

Lemma first_immediate_unreadable (before after : list Change) (change : Change)
    (e : Error) :
  needsBlob change = true ->
  readFileBase64 [repoPath; path change] = inl e ->
  (forall c, In c before -> needsBlob c = true ->
             exists content, readFileBase64 [repoPath; path c] = inr content) ->
  first_immediate (map (treeObjectOf readFileBase64 (parseRepository branchRepository)
                          repoPath) (before ++ change :: after))
  = Some e.
Proof.
  intros Hneeds Hfail. induction before as [| c before IH]; intros Hread;
    cbn [app map first_immediate]; rewrite immediate_treeObjectOf.
  - now rewrite Hneeds, Hfail.
  - destruct (needsBlob c) eqn:Hc.
    + destruct (Hread c (or_introl eq_refl) Hc) as (content & ->).
      apply IH. intros c' Hin. apply Hread. now right.
    + apply IH. intros c' Hin. apply Hread. now right.
Qed.

(** The uploads of a change list and what [Promise.all] settles to. *)
Lemma run_uploads_verdict (changes : list Change) (st : S) :
  let progs := map (treeObjectOf readFileBase64 (parseRepository branchRepository)
                      repoPath) changes in
  let o := run host (settle_all progs) st in
  calls o = uploadCallsOf readFileBase64 repoPath branchRepository changes
  /\ exists rs,
       result o = inr rs
       /\ ((exists ev, In ev (trace o) /\ rejection ev <> None) ->
           exists e, verdict progs rs = inl e)
       /\ ((exists change e, In change changes /\ needsBlob change = true
                             /\ readFileBase64 [repoPath; path change] = inl e) ->
           exists e, verdict progs rs = inl e)
       /\ (Forall (fun change => needsBlob change = false) changes ->
           trace o = [] /\ final o = st
           /\ verdict progs rs = inr (map removalEntry changes))
       /\ (forall entries, verdict progs rs = inr entries ->
             exists uploads,
               Forall2 (uploadFor readFileBase64 repoPath) changes uploads
               /\ trace o = flat_map (uploadEvents branchRepository) uploads
               /\ entries = entriesOf changes uploads)
       /\ (forall e, verdict progs rs = inl e ->
             (exists change e0, In change changes /\ needsBlob change = true
                                /\ readFileBase64 [repoPath; path change] = inl e0)
             \/ (exists ev, In ev (trace o) /\ rejection ev <> None)).
Proof.
  cbn zeta.
  destruct (run_settle_all_log changes st)
    as (Hcalls & rs & Hrs & Hrej & Hread & Hplain & Hwhy).
  destruct (run_settle_all host readFileBase64 repoPath branchRepository changes st)
    as (rs' & Hrs' & Hbuilt).
  cbn zeta in *. rewrite Hrs in Hrs'. injection Hrs' as <-.
  pose proof (first_immediate_uploads changes) as Hsync.
  split; [exact Hcalls |]. exists rs. split; [exact Hrs |]. unfold verdict.
  destruct (first_immediate _) as [e0 |].
  - split; [eauto |]. split; [eauto |]. split; [| split; [discriminate |]].
    + intros Hall. exfalso. destruct Hsync as (c & Hin & Hneeds & _).
      rewrite Forall_forall in Hall. rewrite (Hall c Hin) in Hneeds. discriminate.
    + intros e _. left. destruct Hsync as (c & Hin & Hneeds & Hfail). eauto 6.
  - split; [exact Hrej |]. split; [exact Hread |]. split; [exact Hplain |].
    split; [exact Hbuilt | exact Hwhy].
Qed.

Lemma run_createCommit_changes (commit : Commit) (st : S) :
  changes commit <> [] ->
  run host (createCommit readFileBase64 commit repoPath branchRepository) st
  = afterUploads host branchRepository commit
      (map (treeObjectOf readFileBase64 (parseRepository branchRepository) repoPath)
           (changes commit))
      (run host
         (settle_all (map (treeObjectOf readFileBase64
                             (parseRepository branchRepository) repoPath)
                          (changes commit))) st).
Proof.
  intros Hsome. unfold createCommit, promise_all, afterUploads, treeCall, createCommitParams.
  destruct (changes commit) as [| change changes'] eqn:Hchanges; [contradiction |].
  cbn [Js.nonempty]. rewrite <- Hchanges. clear Hsome.
  set (progs := map (treeObjectOf readFileBase64 (parseRepository branchRepository)
                       repoPath) (changes commit)).
  set (uploading := run host (settle_all progs) st).
  rewrite !run_bind. fold uploading. unfold andThen.
  destruct (result uploading) as [e | rs]; cbn [result trace final]; [reflexivity |].
  destruct (verdict progs rs) as [e | entries]; cbn [lift run result trace final app];
    [now rewrite app_nil_r |].
  rewrite !run_bind. unfold andThen. exec.
  match goal with
  | |- context [host ?c ?s] => destruct (host c s) as [st1 [e | [treeSha]]]
  end; exec; [now rewrite app_nil_r |].
  match goal with
  | |- context [host ?c ?s] => destruct (host c s) as [st2 [e | [sha']]]
  end; exec; cbn [od_sha]; now rewrite ?app_nil_r, <- ?app_assoc.
Qed.

End Uploads.

(** C2: [createCommit] of a commit whose changes list is empty issues no
    tree-creation call: its only call creates the commit with the tree hash
    the local commit declares.  When the changes list is not empty, the file
    of every change with status ['A'] or ['M'] can be read and the host
    fulfils the blob uploads of the run, the log starts with the blob
    uploads and the tree creation: the tree has one entry per change, in the
    order of the changes list, with the path and mode of the change; a
    change with status ['A'] or ['M'] has the blob hash that the host
    returned for the upload of its content, a change with any other status
    (['D'] included) has a null hash.  A rejected tree creation ends the
    run; a fulfilled one is followed by the creation of the commit on the
    tree hash the host returned, whose answer is the result.  In particular
    a call that returns has logged the uploads, the tree creation and the
    commit creation. *)
Theorem createCommit_tree_entries {S} (host : Host S) (st : S)
    (readFileBase64 : list string -> Settled string)
    (commit : Commit) (repoPath branchRepository : string) :
  let o := run host (createCommit readFileBase64 commit repoPath branchRepository) st in
  (changes commit = [] ->
   calls o = [ GitCreateCommit {| cc_repository := parseRepository branchRepository;
                                  cc_parents := parents commit;
                                  cc_tree := tree commit;
                                  cc_message := subject commit ++ Js.LF ++ Js.LF
                                                ++ body commit |} ])
  /\ (changes commit <> [] ->
      (forall change,
          In change (changes commit) -> needsBlob change = true ->
          exists content, readFileBase64 [repoPath; path change] = inr content) ->
      (forall ev,
          In ev (trace o) -> isBlobUpload (ev_call ev) = true -> rejection ev = None) ->
      exists (uploads : list Upload) (built : Settled ObjectData) (rest : list Event),
        Forall2 (uploadFor readFileBase64 repoPath) (changes commit) uploads
        /\ Forall2 entryFor (changes commit) (entriesOf (changes commit) uploads)
        /\ trace o
           = (flat_map (uploadEvents branchRepository) uploads
              ++ {| ev_call :=
                      GitCreateTree {|
                        ct_repository := parseRepository branchRepository;
                        ct_base_tree := hd_error (parents commit);
                        ct_tree := entriesOf (changes commit) uploads |};
                    ev_reply := built |} :: rest)%list
        /\ match built with
           | inl e => rest = [] /\ result o = inl e
           | inr made =>
               exists answer : Settled ObjectData,
                 rest = [ {| ev_call :=
                               GitCreateCommit
                                 (createCommitParams branchRepository commit
                                    (od_sha made));
                             ev_reply := answer |} ]
                 /\ result o = match answer with
                               | inl e => inl e
                               | inr remote => inr (od_sha remote)
                               end
           end)
  /\ (forall remoteSha,
         changes commit <> [] ->
         result o = inr remoteSha ->
         exists (uploads : list Upload) (treeSha : string),
           Forall2 (uploadFor readFileBase64 repoPath) (changes commit) uploads
           /\ Forall2 entryFor (changes commit) (entriesOf (changes commit) uploads)
           /\ trace o
              = (flat_map (uploadEvents branchRepository) uploads
                 ++ [ {| ev_call :=
                           GitCreateTree {|
                             ct_repository := parseRepository branchRepository;
                             ct_base_tree := hd_error (parents commit);
                             ct_tree := entriesOf (changes commit) uploads |};
                         ev_reply := inr {| od_sha := treeSha |} |};
                      commitEvent branchRepository commit treeSha remoteSha ])%list).
Proof.
  cbn zeta. split; [| split].
  - intros Hnone.
    destruct (run_createCommit_no_changes host readFileBase64 commit repoPath
                branchRepository st Hnone) as (Ht & _).
    unfold calls. rewrite Ht. reflexivity.
  - intros Hsome Hread Hok.
    rewrite (run_createCommit_changes host readFileBase64 repoPath branchRepository
               commit st Hsome) in *.
    destruct (run_uploads_verdict host readFileBase64 repoPath branchRepository
                (changes commit) st)
      as (Hcalls & rs & Hrs & _ & _ & _ & Hbuilt & Hwhy).
    cbn zeta in Hcalls, Hrs, Hbuilt, Hwhy.
    set (progs := map _ (changes commit)) in *.
    set (uploading := run host _ st) in *.
    unfold afterUploads in *. rewrite Hrs in *.
    destruct (verdict progs rs) as [e | entries] eqn:Hverdict.
    + exfalso. cbn [trace] in Hok.
      destruct (Hwhy e eq_refl) as [(change & e0 & Hin & Hneeds & Hfail)
                                   | (ev & Hin & Hne)].
      * destruct (Hread change Hin Hneeds) as (content & Hcontent). congruence.
      * apply Hne, (Hok ev Hin).
        pose proof (uploadCallsOf_blobs readFileBase64 repoPath branchRepository
                      (changes commit)) as Hblobs.
        rewrite <- Hcalls in Hblobs. rewrite forallb_forall in Hblobs.
        apply Hblobs. unfold calls. now apply in_map.
    + destruct (Hbuilt entries eq_refl) as (uploads & Hup & Htrace & ->).
      unfold treeCall in *.
      match goal with
      | |- context [host ?c ?s] => destruct (host c s) as [st1 [e | [treeSha]]]
      end.
      * exists uploads, (inl e), []. cbn [trace result]. rewrite Htrace.
        split; [exact Hup |].
        split; [exact (entriesOf_entryFor readFileBase64 repoPath _ _ Hup) |].
        split; [reflexivity | split; reflexivity].
      * cbn [od_sha].
        match goal with
        | |- context [host ?c ?s] => destruct (host c s) as [st2 answer]
        end.
        exists uploads, (inr {| od_sha := treeSha |}).
        eexists. cbn [trace result]. rewrite Htrace.
        split; [exact Hup |].
        split; [exact (entriesOf_entryFor readFileBase64 repoPath _ _ Hup) |].
        split; [reflexivity |]. exists answer. split; reflexivity.
  - intros remoteSha Hsome Hres.
    rewrite (run_createCommit_changes host readFileBase64 repoPath branchRepository
               commit st Hsome) in *.
    destruct (run_uploads_verdict host readFileBase64 repoPath branchRepository
                (changes commit) st)
      as (_ & rs & Hrs & _ & _ & _ & Hbuilt & _).
    cbn zeta in Hrs, Hbuilt.
    set (progs := map _ (changes commit)) in *.
    set (uploading := run host _ st) in *.
    unfold afterUploads in *. rewrite Hrs in *.
    destruct (verdict progs rs) as [e | entries] eqn:Hverdict; [discriminate Hres |].
    destruct (Hbuilt entries eq_refl) as (uploads & Hup & Htrace & ->).
    unfold treeCall in *.
    match type of Hres with
    | context [host ?c ?s] => destruct (host c s) as [st1 [e | [treeSha]]]
    end; [discriminate Hres |].
    cbn [od_sha] in *.
    match type of Hres with
    | context [host ?c ?s] => destruct (host c s) as [st2 [e | [sha']]]
    end; cbn [result od_sha] in Hres; [discriminate Hres |].
    injection Hres as <-.
    exists uploads, treeSha. cbn [trace]. rewrite Htrace.
    split; [exact Hup |].
    split; [exact (entriesOf_entryFor readFileBase64 repoPath _ _ Hup) |].
    reflexivity.
Qed.

Lemma createCommit_tree_entries_witness :
  let o := run Remote.host (createCommit Sample.workingTree Sample.edit "/work" "o/r")
             Remote.empty in
  let refused := run Sample.commitsRefused
                   (createCommit Sample.workingTree Sample.edit "/work" "o/r")
                   Remote.empty in
  calls (run Remote.host (createCommit Sample.workingTree Sample.first "/work" "o/r")
           Remote.empty)
  = [ GitCreateCommit (createCommitParams "o/r" Sample.first "t1") ]
  /\ (exists (uploads : list Upload) (built : Settled ObjectData) (rest : list Event),
        Forall2 (uploadFor Sample.workingTree "/work") (changes Sample.edit) uploads
        /\ Forall2 entryFor (changes Sample.edit)
             (entriesOf (changes Sample.edit) uploads)
        /\ trace refused
           = (flat_map (uploadEvents "o/r") uploads
              ++ {| ev_call :=
                      GitCreateTree {|
                        ct_repository := parseRepository "o/r";
                        ct_base_tree := hd_error (parents Sample.edit);
                        ct_tree := entriesOf (changes Sample.edit) uploads |};
                    ev_reply := built |} :: rest)%list
        /\ match built with
           | inl e => rest = [] /\ result refused = inl e
           | inr made =>
               exists answer : Settled ObjectData,
                 rest = [ {| ev_call :=
                               GitCreateCommit
                                 (createCommitParams "o/r" Sample.edit (od_sha made));
                             ev_reply := answer |} ]
                 /\ result refused = match answer with
                                     | inl e => inl e
                                     | inr remote => inr (od_sha remote)
                                     end
           end)
  /\ exists (uploads : list Upload) (treeSha : string),
       Forall2 (uploadFor Sample.workingTree "/work") (changes Sample.edit) uploads
       /\ Forall2 entryFor (changes Sample.edit) (entriesOf (changes Sample.edit) uploads)
       /\ trace o
          = (flat_map (uploadEvents "o/r") uploads
             ++ [ {| ev_call :=
                       GitCreateTree {|
                         ct_repository := parseRepository "o/r";
                         ct_base_tree := hd_error (parents Sample.edit);
                         ct_tree := entriesOf (changes Sample.edit) uploads |};
                     ev_reply := inr {| od_sha := treeSha |} |};
                  commitEvent "o/r" Sample.edit treeSha "r3" ])%list.
Proof.
  cbn zeta.
  pose proof (createCommit_tree_entries Remote.host Remote.empty Sample.workingTree
                Sample.first "/work" "o/r") as (Hempty & _).
  pose proof (createCommit_tree_entries Sample.commitsRefused Remote.empty
                Sample.workingTree Sample.edit "/work" "o/r") as (_ & Hbuilt & _).
  pose proof (createCommit_tree_entries Remote.host Remote.empty Sample.workingTree
                Sample.edit "/work" "o/r") as (_ & _ & Hreturned).
  cbn zeta in *. split; [| split].
  - apply Hempty. reflexivity.
  - apply Hbuilt.
    + discriminate.
    + intros change _ _. exists "Y29udGVudA==". reflexivity.
    + intros ev Hin Hcall. vm_compute in Hin.
      repeat (destruct Hin as [<- | Hin]; [first [reflexivity | discriminate Hcall] |]).
      destruct Hin.
  - apply (Hreturned "r3").
    + discriminate.
    + reflexivity.
Defined.

(** X13: the uploads of [createCommit] depend on the commit and the working
    tree only, not on the host: one blob upload per change of status ['A']
    or ['M'] whose file can be read, in the order of the changes, each
    issued whatever the host answered to the others.  After them come at
    most one tree creation and then at most one commit creation, and
    nothing else. *)
Theorem createCommit_uploads_all {S} (host : Host S) (st : S)
    (readFileBase64 : list string -> Settled string)
    (commit : Commit) (repoPath branchRepository : string) :
  let o := run host (createCommit readFileBase64 commit repoPath branchRepository) st in
  exists rest,
    calls o = (uploadCallsOf readFileBase64 repoPath branchRepository (changes commit)
               ++ rest)%list
    /\ (rest = []
        \/ (exists entries, rest = [treeCall branchRepository commit entries])
        \/ (exists treeSha,
              rest = [GitCreateCommit (createCommitParams branchRepository commit treeSha)])
        \/ (exists entries treeSha,
              rest = [ treeCall branchRepository commit entries;
                       GitCreateCommit
                         (createCommitParams branchRepository commit treeSha) ])).
Proof.
  cbn zeta. destruct (changes commit) as [| change changes'] eqn:Hchanges.
  - destruct (run_createCommit_no_changes host readFileBase64 commit repoPath
                branchRepository st Hchanges) as (Ht & _).
    unfold calls. rewrite Ht. eexists. split; [reflexivity |].
    right. right. left. eexists. reflexivity.
  - rewrite <- Hchanges.
    rewrite run_createCommit_changes by (rewrite Hchanges; discriminate).
    destruct (run_uploads_verdict host readFileBase64 repoPath branchRepository
                (changes commit) st) as (Hcalls & rs & Hrs & _).
    cbn zeta in Hcalls, Hrs. unfold afterUploads. rewrite Hrs. rewrite <- Hcalls.
    destruct (verdict _ rs) as [e | entries].
    + exists []. rewrite app_nil_r. split; [reflexivity | now left].
    + destruct (host (treeCall branchRepository commit entries) _) as [st1 [e | d]].
      * eexists. unfold calls. cbn [trace]. rewrite map_app.
        split; [reflexivity |]. right. left. eexists. reflexivity.
      * destruct (host (GitCreateCommit _) st1) as [st2 r2].
        eexists. unfold calls. cbn [trace]. rewrite map_app.
        split; [reflexivity |]. right. right. right. do 2 eexists. reflexivity.
Qed.

(** X14: one failed upload fails the whole commit: when the file of a
    change of status ['A'] or ['M'] cannot be read, or the host rejects a
    blob upload, [createCommit] throws after the uploads; no tree and no
    commit is created. *)
Theorem createCommit_failed_upload {S} (host : Host S) (st : S)
    (readFileBase64 : list string -> Settled string)
    (commit : Commit) (repoPath branchRepository : string) :
  let o := run host (createCommit readFileBase64 commit repoPath branchRepository) st in
  (exists change e,
      In change (changes commit)
      /\ needsBlob change = true
      /\ readFileBase64 [repoPath; path change] = inl e)
  \/ (exists ev,
        In ev (trace o) /\ isBlobUpload (ev_call ev) = true /\ rejection ev <> None) ->
  calls o = uploadCallsOf readFileBase64 repoPath branchRepository (changes commit)
  /\ filter isTreeCreation (calls o) = []
  /\ filter isCommitCreation (calls o) = []
  /\ exists e, result o = inl e.
Proof.
  cbn zeta. intros Hfail.
  assert (Hnone : forall l, forallb isBlobUpload l = true ->
                    filter isTreeCreation l = [] /\ filter isCommitCreation l = []).
  { induction l as [| c l IH]; [split; reflexivity |]. cbn.
    intros H. apply andb_prop in H. destruct H as (Hc & Hl).
    destruct c; try discriminate Hc. cbn. auto. }
  destruct (changes commit) as [| change changes'] eqn:Hchanges.
  - exfalso. destruct Hfail as [(c & e & [] & _) | (ev & Hin & Hblob & _)].
    destruct (run_createCommit_no_changes host readFileBase64 commit repoPath
                branchRepository st Hchanges) as (Ht & _).
    rewrite Ht in Hin. destruct Hin as [<- | []]. discriminate Hblob.
  - rewrite <- Hchanges in *.
    rewrite run_createCommit_changes in * by (rewrite Hchanges; discriminate).
    destruct (run_uploads_verdict host readFileBase64 repoPath branchRepository
                (changes commit) st) as (Hcalls & rs & Hrs & Hrej & Hread & _).
    cbn zeta in Hcalls, Hrs, Hrej, Hread.
    set (progs := map _ (changes commit)) in *.
    set (uploading := run host _ st) in *.
    assert (Hcollect : exists e, verdict progs rs = inl e).
    { destruct Hfail as [Hunread | (ev & Hin & Hblob & Hne)]; [now apply Hread |].
      apply Hrej. exists ev. split; [| exact Hne].
      unfold afterUploads in Hin. rewrite Hrs in Hin.
      destruct (verdict progs rs) as [e | entries]; [exact Hin |].
      destruct (host (treeCall branchRepository commit entries) _) as [st1 [e | d]].
      - cbn [trace] in Hin. apply in_app_or in Hin. destruct Hin as [Hin | Hin];
          [exact Hin |]. destruct Hin as [<- | []]. discriminate Hblob.
      - destruct (host (GitCreateCommit _) st1) as [st2 r2].
        cbn [trace] in Hin. apply in_app_or in Hin. destruct Hin as [Hin | Hin];
          [exact Hin |]. destruct Hin as [<- | [<- | []]]; discriminate Hblob. }
    destruct Hcollect as (e & He). unfold afterUploads. rewrite Hrs, He.
    unfold calls in *. cbn [trace result]. rewrite Hcalls.
    pose proof (Hnone _ (uploadCallsOf_blobs readFileBase64 repoPath branchRepository
                           (changes commit))) as (Htree & Hcommit).
    repeat split; eauto.
Qed.

Lemma createCommit_failed_upload_witness :
  let broken := run Remote.host
                  (createCommit Sample.unreadable Sample.edit "/work" "o/r")
                  Remote.empty in
  let refused := run Sample.blobsRefused
                   (createCommit Sample.workingTree Sample.edit "/work" "o/r")
                   Remote.empty in
  (calls broken = [] /\ exists e, result broken = inl e)
  /\ (calls refused = [uploadCall "o/r" "Y29udGVudA=="]
      /\ exists e, result refused = inl e).
Proof.
  cbn zeta. split.
  - destruct (createCommit_failed_upload Remote.host Remote.empty Sample.unreadable
                Sample.edit "/work" "o/r") as (Hcalls & _ & _ & Hres).
    + left. exists {| path := "a.txt"; mode := "100644"; status := "M" |}.
      eexists. split; [left; reflexivity | split; reflexivity].
    + split; [exact Hcalls | exact Hres].
  - destruct (createCommit_failed_upload Sample.blobsRefused Remote.empty
                Sample.workingTree Sample.edit "/work" "o/r") as (Hcalls & _ & _ & Hres).
    + right.
      exists {| ev_call := uploadCall "o/r" "Y29udGVudA==";
                ev_reply := inl (Remote.http "Server Error") |}.
      split; [left; reflexivity | split; [reflexivity | discriminate]].
    + split; [exact Hcalls | exact Hres].
Defined.

(** X15: a commit whose changes are all of a status other than ['A'] and
    ['M'] (removals) uploads nothing and never reads the working tree:
    whatever [readFileBase64] is, [createCommit] issues the tree creation
    with one entry of null hash per change and, when that is fulfilled, the
    commit creation on the returned tree. *)
Theorem createCommit_removals_only {S} (host : Host S) (st : S)
    (readFileBase64 : list string -> Settled string)
    (commit : Commit) (repoPath branchRepository : string) :
  let o := run host (createCommit readFileBase64 commit repoPath branchRepository) st in
  let removals :=
    GitCreateTree {| ct_repository := parseRepository branchRepository;
                     ct_base_tree := hd_error (parents commit);
                     ct_tree := map removalEntry (changes commit) |} in
  changes commit <> [] ->
  Forall (fun change => needsBlob change = false) (changes commit) ->
  calls o
  = removals
    :: match snd (host removals st) with
       | inl _ => []
       | inr d => [GitCreateCommit (createCommitParams branchRepository commit (od_sha d))]
       end.
Proof.
  cbn zeta. intros Hsome Hall. rewrite run_createCommit_changes by exact Hsome.
  destruct (run_uploads_verdict host readFileBase64 repoPath branchRepository
              (changes commit) st) as (_ & rs & Hrs & _ & _ & Hplain & _).
  cbn zeta in Hrs, Hplain. destruct (Hplain Hall) as (Ht & Hf & Hc).
  unfold afterUploads, treeCall, calls. rewrite Hrs, Hc, Ht, Hf.
  destruct (host (GitCreateTree _) st) as [st1 [e | d]]; cbn [snd]; [reflexivity |].
  destruct (host (GitCreateCommit _) st1) as [st2 r2]. reflexivity.
Qed.

Lemma createCommit_removals_only_witness :
  calls (run Remote.host (createCommit Sample.unreadable Sample.removal "/work" "o/r")
           Remote.empty)
  = [ GitCreateTree {| ct_repository := parseRepository "o/r";
                       ct_base_tree := Some "l3";
                       ct_tree := [ {| to_path := "b.txt"; to_mode := "100644";
                                       to_sha := None; to_type := "blob" |} ] |};
      GitCreateCommit (createCommitParams "o/r" Sample.removal "r1") ].
Proof.
  apply (createCommit_removals_only Remote.host Remote.empty Sample.unreadable
           Sample.removal "/work" "o/r").
  - discriminate.
  - repeat constructor.
Defined.

(** ** SequentialCommitPusher, commits with changes and failures *)

Lemma createdCommits_app (t1 t2 : list Event) :
  createdCommits (t1 ++ t2) = (createdCommits t1 ++ createdCommits t2)%list.
Proof.
  induction t1 as [| ev t1 IH]; [reflexivity |].
  cbn. destruct (createdCommit ev); cbn; now rewrite IH.
Qed.

Lemma createdCommits_blobs (t : list Event) :
  forallb isBlobUpload (map ev_call t) = true -> createdCommits t = [].
Proof.
  induction t as [| [c r] t IH]; [reflexivity |]. cbn.
  intros H. apply andb_prop in H. destruct H as (Hc & Ht).
  destruct c; try discriminate Hc. cbn. auto.
Qed.

Lemma forallb_blob_object (l : list Call) :
  forallb isBlobUpload l = true -> forallb isObjectCall l = true.
Proof.
  induction l as [| c l IH]; [reflexivity |]. cbn [forallb].
  intros H. apply andb_prop in H. destruct H as (Hc & Hl).
  apply andb_true_intro. split; [| now apply IH].
  unfold isObjectCall. now rewrite Hc.
Qed.

Section ReplayWithChanges.

Context {S : Type} (host : Host S).
Variable readFileBase64 : list string -> Settled string.
Variables (repoPath branchRepository : string).

(** One iteration of the loop: object creations only; on return, one commit
    creation, the last call, with the declared parents; a rejected call makes
    the iteration throw. *)
Lemma run_createCommit_facts (commit : Commit) (st : S) :
  let o := run host (createCommit readFileBase64 commit repoPath branchRepository) st in
  forallb isObjectCall (calls o) = true
  /\ (forall h, result o = inr h ->
        exists treeSha,
          createdCommits (trace o)
          = [ (createCommitParams branchRepository commit treeSha,
               inr {| od_sha := h |}) ])
  /\ (forall ev, In ev (trace o) -> rejection ev <> None -> exists e, result o = inl e)
  /\ ((exists change e, In change (changes commit) /\ needsBlob change = true
                        /\ readFileBase64 [repoPath; path change] = inl e) ->
      exists e, result o = inl e).
Proof.
  cbn zeta. destruct (changes commit) as [| change changes'] eqn:Hchanges.
  - destruct (run_createCommit_no_changes host readFileBase64 commit repoPath
                branchRepository st Hchanges) as (Ht & _ & Hr).
    unfold calls. rewrite Ht, Hr. unfold asked. cbn [fst map ev_call].
    destruct (snd (host (GitCreateCommit _) st)) as [e | [h]].
    + repeat split; [discriminate | eauto | eauto].
    + repeat split.
      * intros h' [= <-]. eexists. reflexivity.
      * intros ev [<- | []] Hne. now contradiction Hne.
      * intros (c & e & [] & _).
  - rewrite run_createCommit_changes by (rewrite Hchanges; discriminate).
    rewrite <- Hchanges.
    destruct (run_uploads_verdict host readFileBase64 repoPath branchRepository
                (changes commit) st) as (Hcalls & rs & Hrs & Hrej & Hread & _).
    cbn zeta in Hcalls, Hrs, Hrej, Hread.
    set (progs := map _ (changes commit)) in *.
    set (uploading := run host _ st) in *.
    pose proof (uploadCallsOf_blobs readFileBase64 repoPath branchRepository
                  (changes commit)) as Hblobs.
    rewrite <- Hcalls in Hblobs. unfold calls in Hblobs.
    unfold afterUploads. rewrite Hrs.
    destruct (verdict progs rs) as [e | entries] eqn:Hcollect.
    { unfold calls. cbn [trace result].
      split; [now apply forallb_blob_object |]. split; [discriminate | eauto]. }
    assert (Hreadable : (exists change e, In change (changes commit)
                                           /\ needsBlob change = true
                                           /\ readFileBase64 [repoPath; path change] = inl e)
                        -> False).
    { intros H. destruct (Hread H) as (e & He). discriminate He. }
    assert (Hsettled : forall ev, In ev (trace uploading) -> rejection ev <> None -> False).
    { intros ev Hin Hne. destruct Hrej as (e & He); [eauto | discriminate He]. }
    destruct (host (treeCall branchRepository commit entries) _) as [st1 [e | [treeSha]]].
    { unfold calls. cbn [trace result]. rewrite map_app, forallb_app.
      rewrite (forallb_blob_object _ Hblobs).
      split; [reflexivity |]. split; [discriminate | eauto]. }
    destruct (host (GitCreateCommit _) st1) as [st2 [e | [h]]];
      unfold calls; cbn [trace result od_sha]; rewrite map_app, forallb_app;
      rewrite (forallb_blob_object _ Hblobs);
      (split; [reflexivity |]).
    + split; [discriminate |]. split; eauto.
    + split; [| split].
      * intros h' [= <-]. exists treeSha.
        rewrite createdCommits_app, (createdCommits_blobs _ Hblobs). reflexivity.
      * intros ev Hin Hne. exfalso. apply in_app_or in Hin.
        destruct Hin as [Hin | [<- | [<- | []]]]; try now contradiction Hne.
        exact (Hsettled ev Hin Hne).
      * intros H. contradiction (Hreadable H).
Qed.

(** The loop: object creations only, at most one commit creation per local
    commit; a rejected call makes the loop throw; on return, one commit
    creation per local commit, in order, each with the declared parents. *)
Lemma run_createCommits_facts (commits : list Commit) :
  forall (headSha : string) (st : S),
    let o := run host (createCommits readFileBase64 commits repoPath
                         branchRepository headSha) st in
    forallb isObjectCall (calls o) = true
    /\ (forall ev, In ev (trace o) -> rejection ev <> None -> exists e, result o = inl e)
    /\ ((exists commit change e,
            In commit commits /\ In change (changes commit) /\ needsBlob change = true
            /\ readFileBase64 [repoPath; path change] = inl e) ->
        exists e, result o = inl e)
    /\ (forall last_sha, result o = inr last_sha ->
          exists hashes,
            length hashes = length commits
            /\ last_sha = last hashes headSha
            /\ map (fun x => (cc_parents (fst x), snd x)) (createdCommits (trace o))
               = combine (map parents commits)
                         (map (fun h => inr {| od_sha := h |}) hashes)).
Proof.
  induction commits as [| commit commits IH]; intros headSha st; cbn zeta.
  - repeat split.
    + intros ev [].
    + intros (c & ch & e & [] & _).
    + intros last_sha [= <-]. exists []. repeat split.
  - cbn [createCommits]. rewrite run_bind.
    destruct (run_createCommit_facts commit st) as (Hobj & Hone & Hrej & Hread).
    cbn zeta in Hobj, Hone, Hrej, Hread.
    set (first := run host (createCommit readFileBase64 commit repoPath
                              branchRepository) st) in *.
    rewrite calls_andThen. unfold andThen.
    destruct (result first) as [e | h] eqn:Hfirst; cbn [trace result final].
    + rewrite app_nil_r. repeat split; [exact Hobj | eauto | eauto | discriminate].
    + destruct (IH h (final first)) as (Hobj' & Hrej' & Hread' & Hall').
      cbn zeta in Hobj', Hrej', Hread', Hall'.
      set (others := run host (createCommits readFileBase64 commits repoPath
                                 branchRepository h) (final first)) in *.
      rewrite forallb_app, Hobj, Hobj'. repeat split.
      * intros ev Hin Hne. apply in_app_or in Hin. destruct Hin as [Hin | Hin].
        -- destruct (Hrej ev Hin Hne) as (e & He). discriminate He.
        -- exact (Hrej' ev Hin Hne).
      * intros (c & ch & e & [<- | Hin] & Hch & Hneeds & Hfail).
        -- destruct Hread as (e' & He'); [eauto | discriminate He'].
        -- apply Hread'. eauto 8.
      * intros last_sha Hres. destruct (Hall' last_sha Hres) as (hashes & Hlen & Hlast & Hmap).
        destruct (Hone h eq_refl) as (treeSha & Hcreated).
        exists (h :: hashes). split; [cbn; congruence |]. split.
        -- rewrite last_cons. exact Hlast.
        -- rewrite createdCommits_app, Hcreated, map_app, Hmap. reflexivity.
Qed.

End ReplayWithChanges.

(** X16: for every list of local commits, with or without changes, a call
    of [pushSignedCommits] that returns normally has created one remote
    commit per local commit, in order, each with the parent list the local
    commit declares; its calls are object creations followed by the probe
    and one write of the ref, whose target is the hash the last commit
    creation returned (the empty string for an empty list). *)
Theorem pushSignedCommits_one_commit_each {S} (host : Host S) (st : S)
    (readFileBase64 : list string -> Settled string)
    (commits : list Commit) (repoPath branchRepository branch : string) :
  let o := run host (pushSignedCommits readFileBase64 commits repoPath
                       branchRepository branch) st in
  result o = inr tt ->
  exists (hashes : list string) (objects : list Call) (branchExists : bool),
    length hashes = length commits
    /\ map (fun x => (cc_parents (fst x), snd x)) (createdCommits (trace o))
       = combine (map parents commits) (map (fun h => inr {| od_sha := h |}) hashes)
    /\ forallb isObjectCall objects = true
    /\ calls o
       = (objects ++ [ getRefCall branchRepository branch;
                       refWrite branchRepository branch (last hashes "") branchExists ])%list.
Proof.
  cbn zeta. unfold pushSignedCommits. rewrite run_bind.
  destruct (run_createCommits_facts host readFileBase64 repoPath branchRepository
              commits "" st) as (Hobj & _ & _ & Hall).
  cbn zeta in Hobj, Hall.
  set (loop := run host (createCommits readFileBase64 commits repoPath
                           branchRepository "") st) in *.
  unfold andThen. destruct (result loop) as [e | headSha]; [discriminate |].
  cbn [result trace]. intros _.
  destruct (Hall headSha eq_refl) as (hashes & Hlen & -> & Hmap).
  destruct (run_createOrUpdateRef host branchRepository branch (last hashes "")
              (final loop)) as (Ht & _).
  cbn zeta in Ht. unfold calls. rewrite Ht. cbn [trace].
  exists hashes, (map ev_call (trace loop)). eexists.
  split; [exact Hlen |]. split; [| split; [exact Hobj |]].
  - rewrite createdCommits_app. unfold asked, getRefCall, refWrite.
    cbn [createdCommits createdCommit fst ev_call].
    destruct (fulfilled _); cbn; rewrite app_nil_r; exact Hmap.
  - rewrite map_app. reflexivity.
Qed.

Lemma pushSignedCommits_one_commit_each_witness :
  exists (hashes : list string) (objects : list Call) (branchExists : bool),
    length hashes = 2
    /\ map (fun x => (cc_parents (fst x), snd x))
         (createdCommits
            (trace (run Remote.host
                      (pushSignedCommits Sample.workingTree [Sample.edit; Sample.removal]
                         "/work" "o/r" "feature") Remote.empty)))
       = combine [["l2"]; ["l3"]] (map (fun h => inr {| od_sha := h |}) hashes)
    /\ forallb isObjectCall objects = true
    /\ calls (run Remote.host
                (pushSignedCommits Sample.workingTree [Sample.edit; Sample.removal]
                   "/work" "o/r" "feature") Remote.empty)
       = (objects ++ [ getRefCall "o/r" "feature";
                       refWrite "o/r" "feature" (last hashes "") branchExists ])%list.
Proof.
  apply (pushSignedCommits_one_commit_each Remote.host Remote.empty Sample.workingTree
           [Sample.edit; Sample.removal] "/work" "o/r" "feature").
  reflexivity.
Defined.

(** X17: [pushSignedCommits] touches the ref only after every object was
    created: when the host rejects an object creation, or the file of a
    change of status ['A'] or ['M'] of any of the commits cannot be read,
    the call throws and its log holds object creations only, neither the
    probe nor a write of the ref. *)
Theorem pushSignedCommits_failure_keeps_ref {S} (host : Host S) (st : S)
    (readFileBase64 : list string -> Settled string)
    (commits : list Commit) (repoPath branchRepository branch : string) :
  let o := run host (pushSignedCommits readFileBase64 commits repoPath
                       branchRepository branch) st in
  (exists ev, In ev (trace o) /\ isObjectCall (ev_call ev) = true /\ rejection ev <> None)
  \/ (exists commit change e,
        In commit commits /\ In change (changes commit) /\ needsBlob change = true
        /\ readFileBase64 [repoPath; path change] = inl e) ->
  forallb isObjectCall (calls o) = true
  /\ filter isRefWrite (calls o) = []
  /\ exists e, result o = inl e.
Proof.
  cbn zeta. unfold pushSignedCommits. rewrite run_bind.
  destruct (run_createCommits_facts host readFileBase64 repoPath branchRepository
              commits "" st) as (Hobj & Hrej & Hread & _).
  cbn zeta in Hobj, Hrej, Hread.
  set (loop := run host (createCommits readFileBase64 commits repoPath
                           branchRepository "") st) in *.
  assert (Hnone : forall l, forallb isObjectCall l = true -> filter isRefWrite l = []).
  { induction l as [| c l IH]; [reflexivity |]. cbn [forallb filter].
    intros H. apply andb_prop in H. destruct H as (Hc & Hl).
    destruct c; try discriminate Hc; cbn; auto. }
  intros Hfail.
  assert (Hloop : exists e, result loop = inl e).
  { destruct Hfail as [(ev & Hin & Hcall & Hne) | Hunread]; [| now apply Hread].
    unfold andThen in Hin. destruct (result loop) as [e | headSha] eqn:Hres; [eauto |].
    cbn [trace] in Hin. apply in_app_or in Hin. destruct Hin as [Hin | Hin].
    - exact (Hrej ev Hin Hne).
    - exfalso.
      destruct (run_createOrUpdateRef host branchRepository branch headSha
                  (final loop)) as (Ht & _).
      cbn zeta in Ht. rewrite Ht in Hin. unfold asked, getRefCall, refWrite in Hin.
      destruct (fulfilled _); destruct Hin as [<- | [<- | []]]; discriminate Hcall. }
  destruct Hloop as (e & He). unfold andThen, calls. rewrite He. cbn [trace result].
  split; [exact Hobj |]. split; [exact (Hnone _ Hobj) | eauto].
Qed.

Lemma pushSignedCommits_failure_keeps_ref_witness :
  let o := run Sample.commitsRefused
             (pushSignedCommits Sample.workingTree [Sample.first; Sample.second]
                "/work" "o/r" "feature") Remote.empty in
  (forallb isObjectCall (calls o) = true
   /\ filter isRefWrite (calls o) = []
   /\ exists e, result o = inl e)
  /\ length (calls o) = 1.
Proof.
  cbn zeta. split; [| reflexivity].
  apply (pushSignedCommits_failure_keeps_ref Sample.commitsRefused Remote.empty
           Sample.workingTree [Sample.first; Sample.second] "/work" "o/r" "feature").
  left.
  exists {| ev_call := GitCreateCommit (createCommitParams "o/r" Sample.first "t1");
            ev_reply := inl (Remote.http "Server Error") |}.
  split; [left; reflexivity | split; [reflexivity | discriminate]].
Defined.

(** X18: the loop of [pushSignedCommits] composes: replaying [first ++ rest]
    is replaying [first] and, if that returns, replaying [rest] from the
    host state it left, with the hash the first part returned as the hash
    carried so far; if the first part throws, nothing of [rest] is
    replayed. *)
Theorem createCommits_append {S} (host : Host S) (st : S)
    (readFileBase64 : list string -> Settled string)
    (first rest : list Commit) (repoPath branchRepository headSha : string) :
  run host (createCommits readFileBase64 (first ++ rest) repoPath branchRepository
              headSha) st
  = andThen (run host (createCommits readFileBase64 first repoPath branchRepository
                         headSha) st)
      (fun reached st' =>
         run host (createCommits readFileBase64 rest repoPath branchRepository
                     reached) st').
Proof.
  revert headSha st. induction first as [| commit first IH]; intros headSha st.
  - cbn [app createCommits]. rewrite run_ret. unfold andThen. cbn.
    symmetry. apply outcome_eta.
  - cbn [app createCommits]. rewrite !run_bind. unfold andThen.
    destruct (result (run host (createCommit readFileBase64 commit repoPath
                                  branchRepository) st)) as [e | h];
      cbn [result trace final]; [reflexivity |].
    rewrite IH. unfold andThen.
    destruct (result (run host (createCommits readFileBase64 first repoPath
                                  branchRepository h) _)); cbn [result trace final];
      [reflexivity | now rewrite app_assoc].
Qed.

(** ** PullRequestReconciler, the coordinates of the pull request *)

(** X19: the reconciliation of [createOrUpdate] looks for the pull request
    where the creation was refused: every listing is of the open pull
    requests of the repository, head and base that the creation named, and
    every update goes to that repository with the title and body that the
    creation carried. *)
Theorem createOrUpdate_same_coordinates {S} (host : Host S) (st : S)
    (inputs : Inputs) (baseRepository headRepository : string) :
  let o := run host (createOrUpdate inputs baseRepository headRepository) st in
  (forall c l, In (PullsCreate c) (calls o) -> In (PullsList l) (calls o) ->
     pl_repository l = pc_repository c
     /\ pl_head l = pc_head c
     /\ pl_base l = pc_base c
     /\ pl_state l = "open")
  /\ (forall c u, In (PullsCreate c) (calls o) -> In (PullsUpdate u) (calls o) ->
        pu_repository u = pc_repository c
        /\ pu_title u = pc_title c
        /\ pu_body u = pc_body c).
Proof.
  cbn zeta.
  createOrUpdate_paths host inputs baseRepository headRepository st;
    unfold calls; cbn [trace map ev_call pullsCreateCall pullsListCall pullsUpdateCall];
    split; intros c x Hcreate Hother;
    repeat match goal with
           | H : In _ (_ :: _) |- _ =>
               let H' := fresh in
               destruct H as [H' | H];
               [ first [discriminate H' | injection H' as <-] |]
           | H : In _ [] |- _ => destruct H
           end;
    repeat split.
Qed.

Lemma createOrUpdate_same_coordinates_witness :
  let o := run Remote.host (createOrUpdate Sample.inputs "o/r" "o/r") Sample.opened in
  exists c l,
    In (PullsCreate c) (calls o)
    /\ In (PullsList l) (calls o)
    /\ pl_repository l = pc_repository c
    /\ pl_head l = pc_head c
    /\ pl_base l = pc_base c
    /\ pl_state l = "open".
Proof.
  cbn zeta.
  assert (Hc : In (pullsCreateCall Sample.inputs "o/r" "o/r")
                 (calls (run Remote.host (createOrUpdate Sample.inputs "o/r" "o/r")
                           Sample.opened))) by (left; reflexivity).
  assert (Hl : In (pullsListCall Sample.inputs "o/r" "o/r")
                 (calls (run Remote.host (createOrUpdate Sample.inputs "o/r" "o/r")
                           Sample.opened))) by (right; left; reflexivity).
  do 2 eexists. split; [exact Hc |]. split; [exact Hl |].
  exact (proj1 (createOrUpdate_same_coordinates Remote.host Sample.opened
                  Sample.inputs "o/r" "o/r") _ _ Hc Hl).
Defined.

(** ** The client options *)

Lemma append_cancel_right (a b s : string) : a ++ s = b ++ s -> a = b.
Proof.
  revert b. induction a as [| c a IH]; intros [| d b] H; cbn in H.
  - reflexivity.
  - apply (f_equal String.length) in H. cbn in H.
    rewrite string_length_append in H. lia.
  - apply (f_equal String.length) in H. cbn in H.
    rewrite string_length_append in H. lia.
  - injection H as -> H. f_equal. now apply IH.
Qed.

Lemma after_first_found (sep : ascii) (a b : string) :
  after_first sep (a ++ String sep b) <> None.
Proof.
  induction a as [| c a IH]; cbn.
  - now rewrite Ascii.eqb_refl.
  - destruct (Ascii.eqb c sep); [discriminate | exact IH].
Qed.

(** X20: the constructor picks the public endpoint exactly for the hostname
    [github.com], compared as written; every other hostname gets an
    endpoint of its own, so that two hostnames never share a base URL; and
    the token is passed on exactly when it is not the empty string. *)
Theorem octokitOptions_endpoint (hostname token : string) :
  (baseUrl (octokitOptions hostname token) = "https://api.github.com"
   <-> hostname = "github.com")
  /\ (forall hostname' token',
         baseUrl (octokitOptions hostname token)
         = baseUrl (octokitOptions hostname' token') ->
         hostname = hostname')
  /\ (auth (octokitOptions hostname token) = None <-> token = "")
  /\ (token <> "" -> auth (octokitOptions hostname token) = Some token).
Proof.
  assert (Hown : forall h, "https://" ++ h ++ "/api/v3" <> "https://api.github.com").
  { intros h H. cbn in H. injection H as H.
    apply (f_equal (after_first "/")) in H.
    change (h ++ "/api/v3") with (h ++ String "/" "api/v3") in H.
    cbn in H. now apply after_first_found in H. }
  unfold octokitOptions. cbn [baseUrl auth]. split; [| split; [| split]].
  - destruct (String.eqb_spec hostname "github.com") as [-> | Hne]; cbn.
    + split; reflexivity.
    + split; [intros H; exfalso; exact (Hown hostname H) | contradiction].
  - intros hostname' _.
    destruct (String.eqb_spec hostname "github.com") as [-> | Hne],
             (String.eqb_spec hostname' "github.com") as [-> | Hne']; cbn [negb].
    + reflexivity.
    + intros H. exfalso. exact (Hown hostname' (eq_sym H)).
    + intros H. exfalso. exact (Hown hostname H).
    + intros H. cbn in H. injection H as H. now apply append_cancel_right in H.
  - destruct token; split; congruence.
  - destruct token; congruence.
Qed.

Lemma octokitOptions_endpoint_witness :
  auth (octokitOptions "ghe.example.com" "t0ken") = Some "t0ken".
Proof.
  apply (proj2 (proj2 (proj2 (octokitOptions_endpoint "ghe.example.com" "t0ken")))).
  discriminate.
Defined.

(** X21: a file that cannot be read decides the error of [createCommit]:
    when the file of a change of status ['A'] or ['M'] cannot be read and
    the files of the changes of those statuses before it in the list can,
    the call throws the error of that read, whatever the host answers to
    the uploads of the other changes, also when it rejects one of them. *)
Theorem createCommit_read_error_first {S} (host : Host S) (st : S)
    (readFileBase64 : list string -> Settled string)
    (commit : Commit) (repoPath branchRepository : string)
    (before after : list Change) (change : Change) (e : Error) :
  changes commit = (before ++ change :: after)%list ->
  needsBlob change = true ->
  readFileBase64 [repoPath; path change] = inl e ->
  (forall c, In c before -> needsBlob c = true ->
             exists content, readFileBase64 [repoPath; path c] = inr content) ->
  result (run host (createCommit readFileBase64 commit repoPath branchRepository) st)
  = inl e.
Proof.
  intros Hchanges Hneeds Hfail Hread.
  rewrite run_createCommit_changes
    by (rewrite Hchanges; destruct before; discriminate).
  destruct (run_uploads_verdict host readFileBase64 repoPath branchRepository
              (changes commit) st) as (_ & rs & Hrs & _).
  cbn zeta in Hrs. unfold afterUploads. rewrite Hrs. unfold verdict.
  rewrite Hchanges.
  rewrite (first_immediate_unreadable readFileBase64 repoPath branchRepository
             before after change e Hneeds Hfail Hread).
  reflexivity.
Qed.

Lemma createCommit_read_error_first_witness :
  let o := run Sample.blobsRefused
             (createCommit Sample.withoutB Sample.twoFiles "/work" "o/r")
             Remote.empty in
  result o = inl Sample.missing
  /\ trace o = [ {| ev_call := uploadCall "o/r" "Y29udGVudA==";
                    ev_reply := inl (Remote.http "Server Error") |} ].
Proof.
  cbn zeta. split; [| reflexivity].
  apply (createCommit_read_error_first Sample.blobsRefused Remote.empty Sample.withoutB
           Sample.twoFiles "/work" "o/r"
           [ {| path := "a.txt"; mode := "100644"; status := "M" |} ]
           []
           {| path := "b.txt"; mode := "100644"; status := "A" |}).
  - reflexivity.
  - reflexivity.
  - reflexivity.
  - intros c [<- | []] _. exists "Y29udGVudA==". reflexivity.
Defined.
